(** * Crust-CL-EA: the storage-order adapter, embedded and verified

    A shallow embedding of [src/utils.js] (the transaction observer
    [sendTx]) and of the order pipeline [createRequest], both as
    [src/index.js] has it and as the second copy under [src/unnamed] has
    it, followed by the properties of the specification that concern them.

    JavaScript values are modelled as follows.
    - A [Promise] is its settlement state; [resolve] and [reject] act only
      on a pending promise, as the language defines them.
    - [console.log] and [console.error] append to a console; every template
      literal of the source is one constructor of [Line].
    - The collaborators (validator, IPFS client, HTTP requester, chain
      node, keyring) are fields of an environment record: what each call
      returns or throws, and for an awaited call whether it answers at all.
    - The pipeline runs in a writer/error monad that records every
      collaborator call, console line and callback invocation in order. *)

From Stdlib Require Import String List Bool ZArith Lia.
Import ListNotations.
Local Open Scope string_scope.
Local Open Scope list_scope.

(** ** Values shared by both source files *)

(** A JavaScript [Error]: the observer builds one with [new Error(msg)], the
    collaborators throw theirs. *)
Record JsError := MkError { message : string }.

(** [crustChain.tx.market.placeStorageOrder(cid, size, replica)]. *)
Inductive SubmittableExtrinsic :=
| placeStorageOrder (cid : string) (size : Z) (replica : Z).

(** [ipfsParams] and [ipfsConfig] of the pin request. *)
Record IpfsParams :=
  { arg : string; recursive : bool; progress : bool }.

Record IpfsConfig :=
  { url : string;
    params : IpfsParams;
    http_method : string;
    headers : option (list (string * string)) }.

(** The template literals passed to the console, one constructor each. *)
Inductive Line :=
| SendTxToChain                                   (* utils.js:9 *)
| TransactionStatus (status_type : string) (tx : SubmittableExtrinsic)
                                                  (* utils.js:14 *)
| SendTransactionFailed (tx : SubmittableExtrinsic)   (* utils.js:33 *)
| SendTransactionSuccess (tx : SubmittableExtrinsic)  (* utils.js:36 *)
| ShowError (e : JsError)                         (* index.js:55,123 *)
| Pinning (cid : string) (host : string)          (* index.js:60 *)
| ShowConfig (cfg : IpfsConfig)                   (* index.js:88 *)
| CumulativeSize (size : Z)                       (* index.js:102 *)
| PublishSuccess (cid : string)                   (* index.js:114 *)
| PublishFailed.                                  (* index.js:116 *)

Inductive ConsoleEntry :=
| console_log (l : Line)
| console_error (l : Line).

(** ** Promises *)

Module Promise.

Inductive state (A E : Type) :=
| Pending
| Fulfilled (v : A)
| Rejected (e : E).
Arguments Pending {A E}.
Arguments Fulfilled {A E} v.
Arguments Rejected {A E} e.

Section Settle.
Context {A E : Type}.

(** [resolve(v)]: settles a pending promise, otherwise does nothing. *)
Definition resolve (v : A) (p : state A E) : state A E :=
  match p with
  | Pending => Fulfilled v
  | _ => p
  end.

(** [reject(e)]: settles a pending promise, otherwise does nothing. *)
Definition reject (e : E) (p : state A E) : state A E :=
  match p with
  | Pending => Rejected e
  | _ => p
  end.

Definition settled (p : state A E) : bool :=
  match p with
  | Pending => false
  | _ => true
  end.

(** The two ways a promise reports to whoever awaits it. *)
Inductive channel := Fulfilment | Rejection.

Definition channel_of (p : state A E) : option channel :=
  match p with
  | Pending => None
  | Fulfilled _ => Some Fulfilment
  | Rejected _ => Some Rejection
  end.
End Settle.

End Promise.

(** ** [src/utils.js] *)

Module Utils.
Import Promise.

(** The status enum that the chain API hands to the callback: exactly one
    [isX] flag holds, [type] is the tag's name. *)
Inductive ExtrinsicStatus :=
| Future | Ready | Broadcast | InBlock | Retracted
| FinalityTimeout | Finalized | Usurped | Dropped | Invalid.

Definition type (s : ExtrinsicStatus) : string :=
  match s with
  | Future => "Future" | Ready => "Ready" | Broadcast => "Broadcast"
  | InBlock => "InBlock" | Retracted => "Retracted"
  | FinalityTimeout => "FinalityTimeout" | Finalized => "Finalized"
  | Usurped => "Usurped" | Dropped => "Dropped" | Invalid => "Invalid"
  end.

Definition isInvalid (s : ExtrinsicStatus) : bool :=
  match s with Invalid => true | _ => false end.
Definition isDropped (s : ExtrinsicStatus) : bool :=
  match s with Dropped => true | _ => false end.
Definition isUsurped (s : ExtrinsicStatus) : bool :=
  match s with Usurped => true | _ => false end.
Definition isRetracted (s : ExtrinsicStatus) : bool :=
  match s with Retracted => true | _ => false end.
Definition isInBlock (s : ExtrinsicStatus) : bool :=
  match s with InBlock => true | _ => false end.

(** An on-chain event: [{event: {method, section}}]. *)
Record ChainEvent := { method : string; section : string }.
Record EventRecord := { event : ChainEvent }.

(** One notification: [{events, status}]; [events] may be absent. *)
Record SubmittableResult :=
  { events : option (list EventRecord); status : ExtrinsicStatus }.

(** The destructuring default [{events = [], status}]. *)
Definition events_or_default (r : SubmittableResult) : list EventRecord :=
  match events r with
  | Some evs => evs
  | None => []
  end.

(** What [sendTx] acts on: the promise it returns, the console, and
    whether the chain node still holds the subscription that
    [signAndSend] opened. *)
Record World :=
  { promise : Promise.state bool JsError;
    console : list ConsoleEntry;
    subscribed : bool }.

Definition log (l : Line) (w : World) : World :=
  {| promise := promise w;
     console := console w ++ [console_log l];
     subscribed := subscribed w |}.

Definition log_error (l : Line) (w : World) : World :=
  {| promise := promise w;
     console := console w ++ [console_error l];
     subscribed := subscribed w |}.

Definition do_resolve (v : bool) (w : World) : World :=
  {| promise := resolve v (promise w);
     console := console w;
     subscribed := subscribed w |}.

Definition do_reject (e : JsError) (w : World) : World :=
  {| promise := reject e (promise w);
     console := console w;
     subscribed := subscribed w |}.

(** The function that [signAndSend] resolves to: calling it makes the
    node stop delivering notifications. *)
Definition unsubscribe (w : World) : World :=
  {| promise := promise w;
     console := console w;
     subscribed := false |}.

(** The node registers the callback when [signAndSend] succeeds. *)
Definition subscribe (w : World) : World :=
  {| promise := promise w;
     console := console w;
     subscribed := true |}.

(** The two tests of the event loop:
    [section === 'system' && method === 'ExtrinsicFailed'] and
    [method === 'ExtrinsicSuccess']. *)
Definition failed (r : EventRecord) : bool :=
  (section (event r) =? "system") && (method (event r) =? "ExtrinsicFailed").

Definition succeeded (r : EventRecord) : bool :=
  method (event r) =? "ExtrinsicSuccess".

(** Body of [events.forEach(({event: {method, section}}) => ...)]. *)
Definition on_event (tx : SubmittableExtrinsic) (w : World)
           (r : EventRecord) : World :=
  if failed r
  then do_resolve false (log_error (SendTransactionFailed tx) w)
  else if succeeded r
  then do_resolve true (log (SendTransactionSuccess tx) w)
  else w.

(** [events.forEach(f)]: [f] runs on every element, in order. *)
Definition forEach (tx : SubmittableExtrinsic) (evs : list EventRecord)
           (w : World) : World :=
  fold_left (on_event tx) evs w.

(** The first test of the callback. *)
Definition invalidating (s : ExtrinsicStatus) : bool :=
  isInvalid s || isDropped s || isUsurped s || isRetracted s.

(** The status callback handed to [signAndSend]. *)
Definition callback (tx : SubmittableExtrinsic) (r : SubmittableResult)
           (w : World) : World :=
  let w := log (TransactionStatus (type (status r)) tx) w in
  let w :=
    if invalidating (status r)
    then do_reject (MkError "Invalid transaction") w
    else w in
  if isInBlock (status r)
  then forEach tx (events_or_default r) w
  else w.

(** The chain node hands a notification to the callback as long as the
    subscription stands. *)
Definition deliver (tx : SubmittableExtrinsic) (w : World)
           (r : SubmittableResult) : World :=
  if subscribed w then callback tx r w else w.

(** [new Keyring({type: 'sr25519'}).addFromUri(seeds)]. *)
Record KeyringPair := { pair_type : string; uri : option string }.

(** What [tx.signAndSend(krp, cb)] does: its promise rejects and the
    callback never runs, or the subscription is opened and the node
    delivers notifications in order. *)
Inductive Submission :=
| SubmitFailed (e : JsError)
| Notifications (ns : list SubmittableResult).

Section WithChain.
(** [kr.addFromUri]: the pair, or the error it throws. *)
Variable addFromUri : string -> option string -> KeyringPair + JsError.
Variable signAndSend : SubmittableExtrinsic -> KeyringPair -> Submission.

Definition loadKeyringPair (seeds : option string)
  : KeyringPair + JsError :=
  addFromUri "sr25519" seeds.

Definition start : World :=
  {| promise := Pending;
     console := [console_log SendTxToChain];
     subscribed := false |}.

(** The subscription at work: the node delivers [ns] one by one. *)
Definition observe (tx : SubmittableExtrinsic)
           (ns : list SubmittableResult) : World :=
  fold_left (deliver tx) ns (subscribe start).

(** The executor of [new Promise((resolve, reject) => ...)]. *)
Definition executor (tx : SubmittableExtrinsic) (s : Submission) : World :=
  match s with
  | SubmitFailed e => do_reject e start      (* .catch(e => reject(e)) *)
  | Notifications ns => observe tx ns
  end.

Definition sendTx (tx : SubmittableExtrinsic) (seeds : option string)
  : World :=
  match loadKeyringPair seeds with
  | inr e => do_reject e start    (* an async function that throws *)
  | inl krp => executor tx (signAndSend tx krp)
  end.
End WithChain.

(** How many notifications the callback has handled: it writes one
    status line for each. *)
Definition is_status_line (c : ConsoleEntry) : bool :=
  match c with
  | console_log (TransactionStatus _ _) => true
  | _ => false
  end.

Definition handled (w : World) : nat :=
  length (filter is_status_line (console w)).

(** What the callback's two tests make of one notification when the
    promise is still pending: the first settles it as rejected, the
    event loop as fulfilled by the first deciding event.  The transaction
    only shows in console lines, so any will do for the scan. *)
Definition scan (evs : list EventRecord) : Promise.state bool JsError :=
  promise (forEach (placeStorageOrder "" 0 0) evs start).

Definition verdict (r : SubmittableResult) : Promise.state bool JsError :=
  if invalidating (status r)
  then Rejected (MkError "Invalid transaction")
  else if isInBlock (status r)
  then scan (events_or_default r)
  else Pending.

(** The verdict of the first notification that has one. *)
Fixpoint first_verdict (ns : list SubmittableResult)
  : Promise.state bool JsError :=
  match ns with
  | [] => Pending
  | n :: rest =>
      if settled (verdict n) then verdict n else first_verdict rest
  end.

End Utils.

(** ** The pipeline's effects *)

(** A JSON value: the request as a host hands it to [createRequest]. *)
#[local] Unset Elimination Schemes.
Inductive Json :=
| JNull
| JBool (b : bool)
| JNumber (z : Z)
| JString (s : string)
| JArray (items : list Json)
| JObject (members : list (string * Json)).
#[local] Set Elimination Schemes.

(** An object body of the pin response; [fields] are its members other
    than [result]. *)
Record ResponseData :=
  { fields : list (string * string); result : option string }.

(** [response.data]: an object, a string (a body that is not JSON; any
    other primitive behaves alike), or [null]/[undefined]. *)
Inductive Body :=
| object (d : ResponseData)
| text (s : string)
| absent.

(** The HTTP response of the pin request. *)
Record HttpResponse := { resp_status : Z; data : Body }.

(** [Requester.success(jobRunID, response)] and
    [Requester.errored(jobRunID, error)], kept as the calls they are. *)
Inductive AdapterResponse :=
| Requester_success (jobRunID : string) (response : HttpResponse)
| Requester_errored (jobRunID : string) (error : JsError).

(** The [callback] given to [createRequest]: it returns, or it throws. *)
Definition Caller : Type := Z -> AdapterResponse -> option JsError.

(** Options given to [create] of the IPFS client. *)
Record IpfsClientOptions :=
  { client_url : option string; client_headers : option (list (string * string)) }.

(** Everything the pipeline does that is visible outside it, in order. *)
Inductive Effect :=
| Console (c : ConsoleEntry)
| SwarmConnect (opts : IpfsClientOptions) (hostNode : string) (timeout : Z)
| Request (cfg : IpfsConfig)
| FilesStat (opts : IpfsClientOptions) (path : string)
| ChainReady (nodeUrl : option string)
| BuildTx (tx : SubmittableExtrinsic)
| SendTx (tx : SubmittableExtrinsic) (seeds : option string) (w : Utils.World)
| Callback (statusCode : Z) (payload : AdapterResponse).

(** How an awaited computation ends: with a value, with a thrown error
    (a rejected promise), or never. *)
Inductive Res (A : Type) :=
| Ret (a : A)
| Throw (e : JsError)
| Hang.
Arguments Ret {A} a.
Arguments Throw {A} e.
Arguments Hang {A}.

(** A call that answers: with a value or with an error. *)
Definition answers {A} (r : A + JsError) : Res A :=
  match r with
  | inl a => Ret a
  | inr e => Throw e
  end.

Module Async.

Definition M (A : Type) : Type := list Effect * Res A.

Definition ret {A} (a : A) : M A := ([], Ret a).

Definition bind {A B} (m : M A) (k : A -> M B) : M B :=
  match m with
  | (t, Ret a) => let (t', r) := k a in (t ++ t', r)
  | (t, Throw e) => (t, Throw e)
  | (t, Hang) => (t, Hang)
  end.

(** [m.catch(h)], and [try { m } catch (e) { h e }]. *)
Definition catch {A} (m : M A) (h : JsError -> M A) : M A :=
  match m with
  | (t, Throw e) => let (t', r) := h e in (t ++ t', r)
  | _ => m
  end.

Definition emit (e : Effect) : M unit := ([e], Ret tt).

(** An awaited collaborator call: recorded, then its value, its error, or
    nothing more. *)
Definition call {A} (e : Effect) (r : Res A) : M A := ([e], r).

(** A step that returns or throws on the spot. *)
Definition throwing {A} (r : A + JsError) : M A := ([], answers r).

(** [callback(statusCode, payload)]: recorded, and a throw of the callback
    is a throw of the caller. *)
Definition invoke (callback : Caller) (statusCode : Z)
           (payload : AdapterResponse) : M unit :=
  ([Callback statusCode payload],
   match callback statusCode payload with
   | None => Ret tt
   | Some e => Throw e
   end).

Definition trace {A} (m : M A) : list Effect := fst m.
Definition outcome {A} (m : M A) : Res A := snd m.

End Async.

Notation "x <- m ;; k" := (Async.bind m (fun x => k))
  (at level 61, m at next level, right associativity).
Notation "m ;;; k" := (Async.bind m (fun _ => k))
  (at level 61, right associativity).

(** ** What both revisions of the pipeline share *)

(** JavaScript truthiness of a value that is a string or [undefined]. *)
Definition truthy (s : option string) : bool :=
  match s with
  | Some v => negb (v =? "")
  | None => false
  end.

(** [a || b]. *)
Definition or_else (a b : option string) : option string :=
  if truthy a then a else b.

(** Interpolation of a value into a template literal. *)
Definition show (s : option string) : string :=
  match s with
  | Some v => v
  | None => "undefined"
  end.

(** Property lookup and assignment on an object literal. *)
Fixpoint get (k : string) (o : list (string * string)) : option string :=
  match o with
  | [] => None
  | (k', v) :: o' => if k' =? k then Some v else get k o'
  end.

Fixpoint set (k v : string) (o : list (string * string))
  : list (string * string) :=
  match o with
  | [] => [(k, v)]
  | (k', v') :: o' => if k' =? k then (k, v) :: o' else (k', v') :: set k v o'
  end.

(** [{...o, ...more}]. *)
Definition spread (o more : list (string * string)) : list (string * string) :=
  fold_left (fun acc kv => set (fst kv) (snd kv) acc) more o.

(** [validator.validated]. *)
Record ValidatedData :=
  { cid : string;
    hostNode : option string;
    ipfsPinHost : option string;
    crustNodeUrl : option string;
    crustOrderSeeds : option string }.

Record Validated := { validated_id : string; validated_data : ValidatedData }.

(** [ipfsClient.files.stat(path, {size: true})]. *)
Record StatResult := { cumulativeSize : Z }.

(** [process.env], the collaborators and the errors of the runtime.
    [Validator], [create] and [addFromUri] return or throw on the spot;
    the awaited calls answer with a value, with an error, or never. *)
Record Env :=
  { DEFAULT_IPFS_PIN_HOST : option string;
    DEFAULT_CRUST_NODE_URL : option string;
    DEFAULT_CRUST_ORDER_SEEDS : option string;
    DEFAULT_IPFS_PIN_HOST_AUTH_TOKEN : option string;
    (* new Validator(input, customParams).validated *)
    Validator : Json -> Validated + JsError;
    (* create(options) of the IPFS client *)
    create : IpfsClientOptions -> unit + JsError;
    swarm_connect : IpfsClientOptions -> string -> Res unit;
    form_getHeaders : list (string * string);
    Requester_request :
      IpfsConfig -> (Body -> option bool) -> Res HttpResponse;
    files_stat : IpfsClientOptions -> string -> Res StatResult;
    (* new ApiPromise({provider: new WsProvider(url), ...}) and
       await crustChain.isReadyOrError *)
    isReadyOrError : option string -> Res unit;
    addFromUri : string -> option string -> Utils.KeyringPair + JsError;
    signAndSend :
      SubmittableExtrinsic -> Utils.KeyringPair -> Utils.Submission;
    (* the TypeError of assigning a property of null or undefined *)
    assignment_error : JsError;
    (* what Requester.success throws on a body that is not an object *)
    success_error : Body -> JsError }.

(** [customError]: true asks the requester to retry; reading a property
    of [null] throws. *)
Definition customError (d : Body) : option bool :=
  match d with
  | object o =>
      match get "Response" (fields o) with
      | Some r => Some (r =? "Error")
      | None => Some false
      end
  | text _ => Some false
  | absent => None
  end.

(** What [response.data.result = cid] leaves behind when it does not
    throw: an object gets the member, a string is left as it is. *)
Definition set_result (response : HttpResponse) (c : string) : HttpResponse :=
  match data response with
  | object d =>
      {| resp_status := resp_status response;
         data := object {| fields := fields d; result := Some c |} |}
  | _ => response
  end.

(** [response.data.result = cid]: on [null] or [undefined] it throws. *)
Definition assign_result (env : Env) (response : HttpResponse) (c : string)
  : Async.M HttpResponse :=
  match data response with
  | absent => Async.throwing (inr (assignment_error env))
  | _ => Async.ret (set_result response c)
  end.

(** [Requester.success(jobRunID, response)]: the payload, or the error it
    throws when the body is not an object. *)
Definition Requester_success_call (env : Env) (jobRunID : string)
           (response : HttpResponse) : AdapterResponse + JsError :=
  match data response with
  | object _ => inl (Requester_success jobRunID response)
  | b => inr (success_error env b)
  end.

(** [await sendTx(tx, seeds)]: the observer runs, and the pipeline goes on
    with the value its promise settles to, if it ever settles. *)
Definition await_sendTx (env : Env) (tx : SubmittableExtrinsic)
           (seeds : option string) : Async.M bool :=
  let w := Utils.sendTx (addFromUri env) (signAndSend env) tx seeds in
  ([SendTx tx seeds w],
   match Utils.promise w with
   | Promise.Fulfilled b => Ret b
   | Promise.Rejected e => Throw e
   | Promise.Pending => Hang
   end).

Definition console_log_ (l : Line) : Async.M unit :=
  Async.emit (Console (console_log l)).

Definition console_error_ (l : Line) : Async.M unit :=
  Async.emit (Console (console_error l)).

(** ** [src/index.js] *)

Module Index.
Import Async.

Section WithEnv.
Variable env : Env.
Variable callback : Caller.

(** The function given to [.then]. *)
Definition on_response (opts : IpfsClientOptions) (jobRunID : string)
           (c : string) (nodeUrl seeds : option string)
           (response : HttpResponse) : M unit :=
  statRes <- call (FilesStat opts ("/ipfs/" ++ c))
                  (files_stat env opts ("/ipfs/" ++ c)) ;;
  let size := cumulativeSize statRes in
  console_log_ (CumulativeSize size) ;;;
  call (ChainReady nodeUrl) (isReadyOrError env nodeUrl) ;;;
  let tx := placeStorageOrder c size 0 in
  emit (BuildTx tx) ;;;
  res <- await_sendTx env tx seeds ;;
  (if res : bool
   then console_log_ (PublishSuccess c)
   else console_error_ PublishFailed) ;;;
  response <- assign_result env response c ;;
  payload <- throwing (Requester_success_call env jobRunID response) ;;
  invoke callback (resp_status response) payload.

(** The function given to [.catch]. *)
Definition on_error (jobRunID : string) (error : JsError) : M unit :=
  console_log_ (ShowError error) ;;;
  invoke callback 500 (Requester_errored jobRunID error).

(** The [const] bindings at the head of [createRequest]. *)
Definition pinHost (input : Validated) : option string :=
  or_else (ipfsPinHost (validated_data input)) (DEFAULT_IPFS_PIN_HOST env).

Definition nodeUrl (input : Validated) : option string :=
  or_else (crustNodeUrl (validated_data input)) (DEFAULT_CRUST_NODE_URL env).

Definition seeds (input : Validated) : option string :=
  or_else (crustOrderSeeds (validated_data input))
          (DEFAULT_CRUST_ORDER_SEEDS env).

Definition ipfsClientOptions (input : Validated) : IpfsClientOptions :=
  let token := DEFAULT_IPFS_PIN_HOST_AUTH_TOKEN env in
  {| client_url := pinHost input;
     client_headers :=
       if truthy token
       then Some [("authorization", ("Basic " ++ show token)%string)]
       else None |}.

Definition ipfsConfig (input : Validated) : IpfsConfig :=
  let token := DEFAULT_IPFS_PIN_HOST_AUTH_TOKEN env in
  let ipfsUrl := (show (pinHost input) ++ "/api/v0/pin/add")%string in
  let form_config :=
    if truthy token
    then Some (spread [("Content-Type", "multipart/form-data");
                       ("Authorization", ("Basic " ++ show token)%string)]
                      (form_getHeaders env))
    else None in
  let ipfsParams :=
    {| arg := cid (validated_data input);
       recursive := true; progress := true |} in
  {| url := ipfsUrl; params := ipfsParams;
     http_method := "POST"; headers := form_config |}.

(** [createRequest]: the Validator and [create] run before any handler is
    in place, so what they throw rejects the promise of [createRequest]
    itself; from the pin request on, every throw reaches [.catch]. *)
Definition createRequest (request : Json) : M unit :=
  input <- throwing (Validator env request) ;;
  let jobRunID := validated_id input in
  let c := cid (validated_data input) in
  let host := hostNode (validated_data input) in
  let opts := ipfsClientOptions input in
  throwing (create env opts) ;;;
  (if truthy host
   then catch (call (SwarmConnect opts (show host) (60 * 1000))
                    (swarm_connect env opts (show host)))
              (fun error => console_log_ (ShowError error))
   else ret tt) ;;;
  console_log_ (Pinning c (show (pinHost input))) ;;;
  console_log_ (ShowConfig (ipfsConfig input)) ;;;
  catch (response <- call (Request (ipfsConfig input))
                          (Requester_request env (ipfsConfig input)
                                             customError) ;;
         on_response opts jobRunID c (nodeUrl input) (seeds input) response)
        (on_error jobRunID).
End WithEnv.

End Index.

(** ** [src/unnamed/part_000]: the pipeline without swarm connection and
    authentication token *)

Module Part000.
Import Async.

Section WithEnv.
Variable env : Env.
Variable callback : Caller.

(** [create(`${ipfsPinHost}`)]. *)
Definition ipfsClientOptions (host : option string) : IpfsClientOptions :=
  {| client_url := Some (show host); client_headers := None |}.

Definition on_response (host : option string) (jobRunID : string)
           (c : string) (nodeUrl seeds : option string)
           (response : HttpResponse) : M unit :=
  let opts := ipfsClientOptions host in
  throwing (create env opts) ;;;
  statRes <- call (FilesStat opts ("/ipfs/" ++ c))
                  (files_stat env opts ("/ipfs/" ++ c)) ;;
  let size := cumulativeSize statRes in
  call (ChainReady nodeUrl) (isReadyOrError env nodeUrl) ;;;
  let tx := placeStorageOrder c size 0 in
  emit (BuildTx tx) ;;;
  res <- await_sendTx env tx seeds ;;
  (if res : bool
   then console_log_ (PublishSuccess c)
   else console_error_ PublishFailed) ;;;
  response <- assign_result env response c ;;
  payload <- throwing (Requester_success_call env jobRunID response) ;;
  invoke callback (resp_status response) payload.

Definition on_error (jobRunID : string) (error : JsError) : M unit :=
  console_log_ (ShowError error) ;;;
  invoke callback 500 (Requester_errored jobRunID error).

Definition pinHost (input : Validated) : option string :=
  or_else (ipfsPinHost (validated_data input)) (DEFAULT_IPFS_PIN_HOST env).

Definition nodeUrl (input : Validated) : option string :=
  or_else (crustNodeUrl (validated_data input)) (DEFAULT_CRUST_NODE_URL env).

Definition seeds (input : Validated) : option string :=
  or_else (crustOrderSeeds (validated_data input))
          (DEFAULT_CRUST_ORDER_SEEDS env).

Definition ipfsConfig (input : Validated) : IpfsConfig :=
  let ipfsUrl := (show (pinHost input) ++ "/api/v0/pin/add")%string in
  let ipfsParams :=
    {| arg := cid (validated_data input);
       recursive := true; progress := true |} in
  {| url := ipfsUrl; params := ipfsParams;
     http_method := "POST"; headers := None |}.

Definition createRequest (request : Json) : M unit :=
  input <- throwing (Validator env request) ;;
  let jobRunID := validated_id input in
  let c := cid (validated_data input) in
  console_log_ (Pinning c (show (pinHost input))) ;;;
  console_log_ (ShowConfig (ipfsConfig input)) ;;;
  catch (response <- call (Request (ipfsConfig input))
                          (Requester_request env (ipfsConfig input)
                                             customError) ;;
         on_response (pinHost input) jobRunID c
                     (nodeUrl input) (seeds input) response)
        (on_error jobRunID).
End WithEnv.

End Part000.


(** The calls the pipeline makes to its [callback], in order. *)
Fixpoint callbacks (t : list Effect) : list (Z * AdapterResponse) :=
  match t with
  | [] => []
  | Callback s p :: t' => (s, p) :: callbacks t'
  | _ :: t' => callbacks t'
  end.

(** ** The event scan as the specification words it *)

Module Spec.
Import Utils.

(** What one event decides: the failure pattern gives a failed
    execution, the success pattern a successful one, anything else
    nothing. *)
Definition matches (r : EventRecord) : option bool :=
  if failed r then Some false
  else if succeeded r then Some true
  else None.

(** A linear scan that stops at the first event matching either
    pattern. *)
Fixpoint first_match (evs : list EventRecord) : option bool :=
  match evs with
  | [] => None
  | r :: rest =>
      match matches r with
      | Some d => Some d
      | None => first_match rest
      end
  end.

(** The promise a decision leaves behind. *)
Definition decided (d : option bool) : Promise.state bool JsError :=
  match d with
  | Some b => Promise.Fulfilled b
  | None => Promise.Pending
  end.

End Spec.

(** ** Sample data: the scenarios of the specification *)

Module Sample.
Import Utils.

Definition mk_event (s m : string) : EventRecord :=
  {| event := {| method := m; section := s |} |}.

Definition successEvent : EventRecord := mk_event "system" "ExtrinsicSuccess".
Definition failureEvent : EventRecord := mk_event "system" "ExtrinsicFailed".

Definition notification (st : ExtrinsicStatus) (evs : list EventRecord)
  : SubmittableResult :=
  {| events := Some evs; status := st |}.

Definition order : SubmittableExtrinsic := placeStorageOrder "QmTest1" 1024 0.

Definition pin_response : HttpResponse :=
  {| resp_status := 200;
     data := object {| fields := [("Pins", "QmTest1")]; result := None |} |}.

Definition pair : KeyringPair :=
  {| pair_type := "sr25519"; uri := Some "//Alice" |}.

(** The request [{id: '1', data: {cid: 'QmTest1'}}] and what the Validator
    makes of it. *)
Definition request : Json :=
  JObject [("id", JString "1");
           ("data", JObject [("cid", JString "QmTest1")])].

Definition input : Validated :=
  {| validated_id := "1";
     validated_data :=
       {| cid := "QmTest1"; hostNode := None; ipfsPinHost := None;
          crustNodeUrl := None; crustOrderSeeds := None |} |}.

(** A callback that returns. *)
Definition returns : Caller := fun _ _ => None.

(** An environment in which every collaborator answers and the chain
    node behaves as [sub] says. *)
Definition env (sub : Submission) : Env :=
  {| DEFAULT_IPFS_PIN_HOST := Some "https://crustwebsites.net";
     DEFAULT_CRUST_NODE_URL := Some "wss://rocky-api.crust.network";
     DEFAULT_CRUST_ORDER_SEEDS := Some "//Alice";
     DEFAULT_IPFS_PIN_HOST_AUTH_TOKEN := None;
     Validator := fun _ => inl input;
     create := fun _ => inl tt;
     swarm_connect := fun _ _ => Ret tt;
     form_getHeaders := [];
     Requester_request := fun _ _ => Ret pin_response;
     files_stat := fun _ _ => Ret {| cumulativeSize := 1024 |};
     isReadyOrError := fun _ => Ret tt;
     addFromUri := fun _ _ => inl pair;
     signAndSend := fun _ _ => sub;
     assignment_error := MkError "Cannot set properties of null";
     success_error := fun _ => MkError "Cannot use 'in' operator" |}.

End Sample.

(** ** Views of a trace *)

Definition is_console (e : Effect) : bool :=
  match e with
  | Console _ => true
  | _ => false
  end.

Definition is_swarm_connect (e : Effect) : bool :=
  match e with
  | SwarmConnect _ _ _ => true
  | _ => false
  end.

(** What is left of a trace without the console and the swarm
    connection: the pin request, the size lookup, the chain calls and the
    answer to the caller. *)
Definition calls (t : list Effect) : list Effect :=
  filter (fun e => negb (is_console e) && negb (is_swarm_connect e)) t.

(** The transactions handed to [sendTx], with the seeds they are signed
    with. *)
Fixpoint submissions (t : list Effect)
  : list (SubmittableExtrinsic * option string) :=
  match t with
  | [] => []
  | SendTx tx seeds _ :: t' => (tx, seeds) :: submissions t'
  | _ :: t' => submissions t'
  end.

(** A request parameter that is the empty string, read as left out. *)
Definition absent_if_empty (s : option string) : option string :=
  if truthy s then s else None.

Definition without_empty (input : Validated) : Validated :=
  {| validated_id := validated_id input;
     validated_data :=
       {| cid := cid (validated_data input);
          hostNode := absent_if_empty (hostNode (validated_data input));
          ipfsPinHost := absent_if_empty (ipfsPinHost (validated_data input));
          crustNodeUrl := absent_if_empty (crustNodeUrl (validated_data input));
          crustOrderSeeds :=
            absent_if_empty (crustOrderSeeds (validated_data input)) |} |}.

(** The same environment with another swarm. *)
Definition with_swarm_connect
           (f : IpfsClientOptions -> string -> Res unit) (env : Env)
  : Env :=
  {| DEFAULT_IPFS_PIN_HOST := DEFAULT_IPFS_PIN_HOST env;
     DEFAULT_CRUST_NODE_URL := DEFAULT_CRUST_NODE_URL env;
     DEFAULT_CRUST_ORDER_SEEDS := DEFAULT_CRUST_ORDER_SEEDS env;
     DEFAULT_IPFS_PIN_HOST_AUTH_TOKEN := DEFAULT_IPFS_PIN_HOST_AUTH_TOKEN env;
     Validator := Validator env;
     create := create env;
     swarm_connect := f;
     form_getHeaders := form_getHeaders env;
     Requester_request := Requester_request env;
     files_stat := files_stat env;
     isReadyOrError := isReadyOrError env;
     addFromUri := addFromUri env;
     signAndSend := signAndSend env;
     assignment_error := assignment_error env;
     success_error := success_error env |}.

(** The same environment with another validator, and with another
    [create]. *)
Definition with_Validator (f : Json -> Validated + JsError) (env : Env)
  : Env :=
  {| DEFAULT_IPFS_PIN_HOST := DEFAULT_IPFS_PIN_HOST env;
     DEFAULT_CRUST_NODE_URL := DEFAULT_CRUST_NODE_URL env;
     DEFAULT_CRUST_ORDER_SEEDS := DEFAULT_CRUST_ORDER_SEEDS env;
     DEFAULT_IPFS_PIN_HOST_AUTH_TOKEN := DEFAULT_IPFS_PIN_HOST_AUTH_TOKEN env;
     Validator := f;
     create := create env;
     swarm_connect := swarm_connect env;
     form_getHeaders := form_getHeaders env;
     Requester_request := Requester_request env;
     files_stat := files_stat env;
     isReadyOrError := isReadyOrError env;
     addFromUri := addFromUri env;
     signAndSend := signAndSend env;
     assignment_error := assignment_error env;
     success_error := success_error env |}.

Definition with_create (f : IpfsClientOptions -> unit + JsError) (env : Env)
  : Env :=
  {| DEFAULT_IPFS_PIN_HOST := DEFAULT_IPFS_PIN_HOST env;
     DEFAULT_CRUST_NODE_URL := DEFAULT_CRUST_NODE_URL env;
     DEFAULT_CRUST_ORDER_SEEDS := DEFAULT_CRUST_ORDER_SEEDS env;
     DEFAULT_IPFS_PIN_HOST_AUTH_TOKEN := DEFAULT_IPFS_PIN_HOST_AUTH_TOKEN env;
     Validator := Validator env;
     create := f;
     swarm_connect := swarm_connect env;
     form_getHeaders := form_getHeaders env;
     Requester_request := Requester_request env;
     files_stat := files_stat env;
     isReadyOrError := isReadyOrError env;
     addFromUri := addFromUri env;
     signAndSend := signAndSend env;
     assignment_error := assignment_error env;
     success_error := success_error env |}.

(** The keys of an object literal. *)
Definition has_key (k : string) (o : list (string * string)) : bool :=
  existsb (fun kv => fst kv =? k) o.

(** ** The pipeline, flattened

    One run from the pin request on, as a tree that branches on what each
    collaborator answers: the calls it makes and how it ends.  Both
    revisions are proved to run exactly like this, each with its own pin
    request, client, node and seeds. *)

(** [.catch]: the error is answered with status 500; if the callback
    throws on that, the promise chain ends rejected. *)
Definition answer_error (callback : Caller) (jobRunID : string) (e : JsError)
  : Async.M unit :=
  Async.invoke callback 500 (Requester_errored jobRunID e).

(** One more call in front of a run. *)
Definition after (e : Effect) (m : Async.M unit) : Async.M unit :=
  (e :: fst m, snd m).

(** What follows a resolved [sendTx]: the assignment of the result, the
    success payload, the callback, and [.catch] for what any of them
    throws. *)
Definition answer_success (env : Env) (callback : Caller)
           (jobRunID c : string) (response : HttpResponse) : Async.M unit :=
  match data response with
  | absent => answer_error callback jobRunID (assignment_error env)
  | text s => answer_error callback jobRunID (success_error env (text s))
  | object d =>
      let payload := Requester_success jobRunID (set_result response c) in
      after (Callback (resp_status response) payload)
            match callback (resp_status response) payload with
            | None => Async.ret tt
            | Some e => answer_error callback jobRunID e
            end
  end.

Definition protocol (env : Env) (callback : Caller) (jobRunID c : string)
           (cfg : IpfsConfig) (client : unit + JsError)
           (opts : IpfsClientOptions) (node seeds : option string)
  : Async.M unit :=
  after (Request cfg)
  match Requester_request env cfg customError with
  | Hang => ([], Hang)
  | Throw e => answer_error callback jobRunID e
  | Ret response =>
      match client with
      | inr e => answer_error callback jobRunID e
      | inl _ =>
          after (FilesStat opts ("/ipfs/" ++ c))
          match files_stat env opts ("/ipfs/" ++ c) with
          | Hang => ([], Hang)
          | Throw e => answer_error callback jobRunID e
          | Ret stat =>
              after (ChainReady node)
              match isReadyOrError env node with
              | Hang => ([], Hang)
              | Throw e => answer_error callback jobRunID e
              | Ret _ =>
                  let tx := placeStorageOrder c (cumulativeSize stat) 0 in
                  let w :=
                    Utils.sendTx (addFromUri env) (signAndSend env) tx seeds in
                  after (BuildTx tx)
                  (after (SendTx tx seeds w)
                   match Utils.promise w with
                   | Promise.Pending => ([], Hang)
                   | Promise.Fulfilled _ =>
                       answer_success env callback jobRunID c response
                   | Promise.Rejected e => answer_error callback jobRunID e
                   end)
              end
          end
      end
  end.

(** ** More sample data: collaborators that fail *)

Module Scenario.
Import Utils.

(** A request that names a host node and leaves a parameter empty. *)
Definition request : Json :=
  JObject [("id", JString "7");
           ("data", JObject [("cid", JString "QmTest1");
                             ("hostNode", JString "/ip4/10.0.0.1/tcp/4001");
                             ("ipfsPinHost", JString "");
                             ("crustOrderSeeds", JString "//Bob")])].

Definition input : Validated :=
  {| validated_id := "7";
     validated_data :=
       {| cid := "QmTest1"; hostNode := Some "/ip4/10.0.0.1/tcp/4001";
          ipfsPinHost := Some ""; crustNodeUrl := None;
          crustOrderSeeds := Some "//Bob" |} |}.

(** An environment given by what each collaborator answers. *)
Definition env (token : option string) (form : list (string * string))
           (swarm : Res unit)
           (pin : Res HttpResponse) (stat : Res StatResult)
           (ready : Res unit) (pair : KeyringPair + JsError)
           (sub : Submission) : Env :=
  {| DEFAULT_IPFS_PIN_HOST := Some "https://crustwebsites.net";
     DEFAULT_CRUST_NODE_URL := Some "wss://rocky-api.crust.network";
     DEFAULT_CRUST_ORDER_SEEDS := Some "//Alice";
     DEFAULT_IPFS_PIN_HOST_AUTH_TOKEN := token;
     Validator := fun _ => inl input;
     create := fun _ => inl tt;
     swarm_connect := fun _ _ => swarm;
     form_getHeaders := form;
     Requester_request := fun _ _ => pin;
     files_stat := fun _ _ => stat;
     isReadyOrError := fun _ => ready;
     addFromUri := fun _ _ => pair;
     signAndSend := fun _ _ => sub;
     assignment_error := MkError "Cannot set properties of null";
     success_error := fun _ => MkError "Cannot use 'in' operator" |}.

Definition size : StatResult := {| cumulativeSize := 1024 |}.

(** The body that [/api/v0/pin/add] streams with [progress=true]: text,
    not one JSON object. *)
Definition streamed : HttpResponse :=
  {| resp_status := 200; data := text "{Progress:1024}{Pins:[QmTest1]}" |}.

(** A callback that throws on a success answer and returns otherwise. *)
Definition throws_on_success : Caller :=
  fun _ p =>
    match p with
    | Requester_success _ _ => Some (MkError "socket closed")
    | Requester_errored _ _ => None
    end.

End Scenario.

(** * Properties *)

(** ** The observer *)

Module UtilsFacts.
Import Promise Utils.

Lemma resolve_settled {A E} (v : A) (p : state A E) :
  settled p = true -> resolve v p = p.
Proof. destruct p; simpl; congruence. Qed.

Lemma reject_settled {A E} (e : E) (p : state A E) :
  settled p = true -> reject e p = p.
Proof. destruct p; simpl; congruence. Qed.

(** One event acts on the promise as its pattern says, and only on a
    pending one. *)
Lemma on_event_promise tx w r :
  promise (on_event tx w r) =
  match promise w with
  | Pending => Spec.decided (Spec.matches r)
  | p => p
  end.
Proof.
  unfold on_event, Spec.matches.
  destruct (failed r); [ | destruct (succeeded r) ];
    simpl; destruct (promise w); reflexivity.
Qed.

Lemma forEach_promise tx evs :
  forall w,
    promise (forEach tx evs w) =
    match promise w with
    | Pending => Spec.decided (Spec.first_match evs)
    | p => p
    end.
Proof.
  unfold forEach.
  induction evs as [ | r evs IH ]; intros w; simpl.
  - destruct (promise w); reflexivity.
  - rewrite IH, on_event_promise.
    destruct (promise w); try reflexivity.
    destruct (Spec.matches r); reflexivity.
Qed.

Lemma scan_first_match evs : scan evs = Spec.decided (Spec.first_match evs).
Proof. unfold scan. rewrite forEach_promise. reflexivity. Qed.

Lemma on_event_subscribed tx w r :
  subscribed (on_event tx w r) = subscribed w.
Proof.
  unfold on_event.
  destruct (failed r); [ | destruct (succeeded r) ]; reflexivity.
Qed.

Lemma forEach_subscribed tx evs :
  forall w, subscribed (forEach tx evs w) = subscribed w.
Proof.
  unfold forEach.
  induction evs as [ | r evs IH ]; intros w; simpl; [ reflexivity | ].
  rewrite IH. apply on_event_subscribed.
Qed.

Lemma handled_log l w :
  handled (log l w) =
  (if is_status_line (console_log l) then S (handled w) else handled w).
Proof.
  unfold handled, log. simpl console. rewrite filter_app, length_app.
  destruct l; simpl; lia.
Qed.

Lemma on_event_handled tx w r : handled (on_event tx w r) = handled w.
Proof.
  unfold on_event.
  destruct (failed r); [ | destruct (succeeded r) ]; try reflexivity.
  - unfold handled, do_resolve, log_error. simpl console.
    rewrite filter_app. simpl. apply f_equal. apply app_nil_r.
  - unfold do_resolve. change (handled (log (SendTransactionSuccess tx) w) = handled w).
    apply handled_log.
Qed.

Lemma forEach_handled tx evs :
  forall w, handled (forEach tx evs w) = handled w.
Proof.
  unfold forEach.
  induction evs as [ | r evs IH ]; intros w; simpl; [ reflexivity | ].
  rewrite IH. apply on_event_handled.
Qed.

(** The callback, seen from the promise. *)
Lemma callback_promise tx n w :
  promise (callback tx n w) =
  match promise w with
  | Pending => verdict n
  | p => p
  end.
Proof.
  unfold callback, verdict.
  destruct (invalidating (status n)) eqn:Hinv.
  - assert (Hblock : isInBlock (status n) = false)
      by (unfold invalidating in Hinv; destruct (status n);
          simpl in *; congruence).
    rewrite Hblock. simpl. destruct (promise w); reflexivity.
  - destruct (isInBlock (status n)).
    + rewrite forEach_promise, scan_first_match. simpl.
      destruct (promise w); reflexivity.
    + simpl. destruct (promise w); reflexivity.
Qed.

Lemma callback_subscribed tx n w :
  subscribed (callback tx n w) = subscribed w.
Proof.
  unfold callback.
  destruct (invalidating (status n)); destruct (isInBlock (status n));
    rewrite ?forEach_subscribed; reflexivity.
Qed.

Lemma callback_handled tx n w :
  handled (callback tx n w) = S (handled w).
Proof.
  unfold callback.
  assert (Hlog : forall w', handled (log (TransactionStatus (type (status n)) tx) w')
                            = S (handled w'))
    by (intros w'; apply handled_log).
  destruct (invalidating (status n)); destruct (isInBlock (status n));
    rewrite ?forEach_handled; unfold do_reject, handled in *; simpl console;
    apply Hlog.
Qed.

(** The whole stream. *)
Lemma deliveries_subscribed tx ns :
  forall w, subscribed (fold_left (deliver tx) ns w) = subscribed w.
Proof.
  induction ns as [ | n ns IH ]; intros w; simpl; [ reflexivity | ].
  rewrite IH. unfold deliver.
  destruct (subscribed w) eqn:Hs; [ | exact Hs ].
  rewrite callback_subscribed. exact Hs.
Qed.

Lemma deliveries_promise tx ns :
  forall w,
    subscribed w = true ->
    promise (fold_left (deliver tx) ns w) =
    match promise w with
    | Pending => first_verdict ns
    | p => p
    end.
Proof.
  induction ns as [ | n ns IH ]; intros w Hs; simpl.
  - destruct (promise w); reflexivity.
  - assert (Hd : deliver tx w n = callback tx n w)
      by (unfold deliver; rewrite Hs; reflexivity).
    rewrite Hd, IH by (rewrite callback_subscribed; exact Hs).
    rewrite callback_promise.
    destruct (promise w); try reflexivity.
    destruct (verdict n); reflexivity.
Qed.

Lemma deliveries_handled tx ns :
  forall w,
    subscribed w = true ->
    handled (fold_left (deliver tx) ns w) = (length ns + handled w)%nat.
Proof.
  induction ns as [ | n ns IH ]; intros w Hs; simpl; [ reflexivity | ].
  assert (Hd : deliver tx w n = callback tx n w)
    by (unfold deliver; rewrite Hs; reflexivity).
  rewrite Hd, IH by (rewrite callback_subscribed; exact Hs).
  rewrite callback_handled. lia.
Qed.

Lemma observe_promise tx ns : promise (observe tx ns) = first_verdict ns.
Proof. unfold observe. rewrite deliveries_promise; reflexivity. Qed.

Lemma first_verdict_app pre post :
  first_verdict (pre ++ post) =
  match first_verdict pre with
  | Pending => first_verdict post
  | p => p
  end.
Proof.
  induction pre as [ | n pre IH ]; simpl; [ reflexivity | ].
  destruct (verdict n); simpl; auto.
Qed.

(** A list of events whose first deciding event is [r]. *)
Lemma first_match_at a r b d :
  (forall x, In x a -> Spec.matches x = None \/ Spec.matches x = Some d) ->
  Spec.matches r = Some d ->
  Spec.first_match (a ++ r :: b) = Some d.
Proof.
  intros Ha Hr.
  induction a as [ | x a IH ]; simpl.
  - rewrite Hr. reflexivity.
  - destruct (Ha x (or_introl eq_refl)) as [Hx | Hx]; rewrite Hx.
    + apply IH. intros y Hy. apply Ha. right. exact Hy.
    + reflexivity.
Qed.

End UtilsFacts.

Module Observer.
Import Promise Utils UtilsFacts.

(** Calling the handle that [signAndSend] resolves to would stop the
    deliveries; [sendTx] never binds that handle. *)
Lemma deliver_after_unsubscribe tx w n :
  deliver tx (unsubscribe w) n = unsubscribe w.
Proof. reflexivity. Qed.

(** C2, as stated, fails: for the stream [Dropped] the promise is rejected
    with the fixed error [Invalid transaction], not with an error that
    carries the tag [Dropped]. *)
Lemma dropped_reason_is_not_the_tag :
  let w := executor Sample.order
                    (Notifications [Sample.notification Dropped []]) in
  promise w = Rejected (MkError "Invalid transaction")
  /\ promise w <> Rejected (MkError (type Dropped)).
Proof. simpl. split; [ reflexivity | discriminate ]. Qed.

(** C2, amended: when the first notification carries one of the tags
    Invalid, Dropped, Usurped, Retracted, the promise of [sendTx] is
    rejected at once with the fixed error [Invalid transaction], whichever
    of the four tags it is and whatever notifications follow. *)
Theorem invalidating_first_notification tx n rest :
  In (status n) [Invalid; Dropped; Usurped; Retracted] ->
  promise (executor tx (Notifications [n]))
  = Rejected (MkError "Invalid transaction")
  /\ promise (executor tx (Notifications (n :: rest)))
     = Rejected (MkError "Invalid transaction").
Proof.
  intros Htag.
  assert (Hv : verdict n = Rejected (MkError "Invalid transaction")).
  { unfold verdict, invalidating.
    simpl in Htag.
    destruct Htag as [H | [H | [H | [H | []]]]]; rewrite <- H; reflexivity. }
  simpl executor. rewrite !observe_promise. simpl. rewrite Hv. simpl.
  split; reflexivity.
Qed.

Lemma invalidating_first_notification_witness :
  promise (executor Sample.order
             (Notifications [Sample.notification Usurped [];
                             Sample.notification InBlock [Sample.successEvent]]))
  = Rejected (MkError "Invalid transaction").
Proof.
  apply (invalidating_first_notification
           Sample.order (Sample.notification Usurped [])
           [Sample.notification InBlock [Sample.successEvent]]).
  simpl. auto.
Defined.

(** C3, as stated, fails: an InBlock notification whose event list holds a
    system/ExtrinsicFailed event after an ExtrinsicSuccess event resolves
    the promise with [true]. *)
Lemma failure_after_success_is_confirmed :
  let n := Sample.notification InBlock
             [Sample.successEvent; Sample.failureEvent] in
  In Sample.failureEvent (events_or_default n)
  /\ failed Sample.failureEvent = true
  /\ promise (executor Sample.order (Notifications [n])) = Fulfilled true.
Proof. simpl. repeat split. right. left. reflexivity. Qed.

(** C3, amended: when the promise is still pending as an InBlock
    notification arrives whose event list holds a system/ExtrinsicFailed
    event with no ExtrinsicSuccess event before it, [sendTx] resolves
    with [false] at that notification, and never with [true], whatever
    follows. *)
Theorem failure_event_rejects tx pre n a r b post :
  promise (observe tx pre) = Pending ->
  status n = InBlock ->
  events n = Some (a ++ r :: b) ->
  failed r = true ->
  (forall x, In x a -> succeeded x = false) ->
  promise (executor tx (Notifications (pre ++ n :: post))) = Fulfilled false
  /\ promise (executor tx (Notifications (pre ++ n :: post))) <> Fulfilled true.
Proof.
  intros Hpre Hst Hev Hr Ha.
  assert (Hv : verdict n = Fulfilled false).
  { unfold verdict, invalidating, events_or_default.
    rewrite Hst, Hev. simpl. rewrite scan_first_match.
    rewrite (first_match_at a r b false); [ reflexivity | | ].
    - intros x Hx. unfold Spec.matches.
      destruct (failed x); [ right; reflexivity | ].
      rewrite (Ha x Hx). left. reflexivity.
    - unfold Spec.matches. rewrite Hr. reflexivity. }
  assert (Hp : promise (executor tx (Notifications (pre ++ n :: post)))
               = Fulfilled false).
  { simpl executor. rewrite observe_promise, first_verdict_app.
    rewrite <- observe_promise with (tx := tx), Hpre.
    simpl. rewrite Hv. reflexivity. }
  split; [ exact Hp | rewrite Hp; discriminate ].
Qed.

Lemma failure_event_rejects_witness :
  promise (executor Sample.order
             (Notifications
                ([Sample.notification Ready []]
                   ++ Sample.notification InBlock
                        ([Sample.mk_event "balances" "Withdraw"]
                           ++ Sample.failureEvent :: [Sample.successEvent])
                   :: [Sample.notification Finalized []])))
  = Fulfilled false.
Proof.
  apply (failure_event_rejects
           Sample.order [Sample.notification Ready []]
           (Sample.notification InBlock
              ([Sample.mk_event "balances" "Withdraw"]
                 ++ Sample.failureEvent :: [Sample.successEvent]))
           [Sample.mk_event "balances" "Withdraw"]
           Sample.failureEvent [Sample.successEvent]
           [Sample.notification Finalized []]).
  - reflexivity.
  - reflexivity.
  - reflexivity.
  - reflexivity.
  - simpl. intros x [Hx | []]. rewrite <- Hx. reflexivity.
Defined.

(** C5, as stated, fails twice over.  A stream need not resolve at all: on
    the empty stream the promise stays pending.  And a notification that
    comes after the resolution is not a no-op: the callback runs on it and
    writes to the console. *)
Lemma late_notification_is_handled :
  let first := Sample.notification InBlock [Sample.successEvent] in
  let late := Sample.notification InBlock [Sample.failureEvent] in
  promise (executor Sample.order (Notifications [])) = Pending
  /\ promise (executor Sample.order (Notifications [first])) = Fulfilled true
  /\ executor Sample.order (Notifications [first; late])
     <> executor Sample.order (Notifications [first])
  /\ In (console_error (SendTransactionFailed Sample.order))
        (console (executor Sample.order (Notifications [first; late]))).
Proof.
  cbv zeta. split; [ reflexivity | ]. split; [ reflexivity | ]. split.
  - intros H. apply (f_equal handled) in H. vm_compute in H. discriminate H.
  - vm_compute. tauto.
Qed.

(** C5, amended: the promise of [sendTx] settles at most once.  A stream
    without an InBlock notification and without an invalidating tag leaves
    it pending; once a notification has settled it, no later notification
    changes the outcome.  A later notification is still handled, the
    callback runs and logs for each one, but its [resolve] and [reject] do
    nothing.  In particular an InBlock notification with a success event
    followed by a notification with an invalidating tag, which alone would
    reject the promise, reports [true] only. *)
Theorem promise_settles_at_most_once :
  (forall tx ns,
      (forall n, In n ns ->
                 isInBlock (status n) = false
                 /\ ~ In (status n) [Invalid; Dropped; Usurped; Retracted]) ->
      promise (executor tx (Notifications ns)) = Pending)
  /\ (forall tx pre post,
         settled (promise (executor tx (Notifications pre))) = true ->
         promise (executor tx (Notifications (pre ++ post)))
         = promise (executor tx (Notifications pre)))
  /\ (forall tx pre post,
         handled (executor tx (Notifications (pre ++ post)))
         = (handled (executor tx (Notifications pre)) + length post)%nat)
  /\ (forall tx r late,
         succeeded r = true ->
         In (status late) [Invalid; Dropped; Usurped; Retracted] ->
         promise (executor tx (Notifications [late]))
         = Rejected (MkError "Invalid transaction")
         /\ promise (executor tx
                       (Notifications
                          [{| events := Some [r]; status := InBlock |}; late]))
            = Fulfilled true).
Proof.
  split; [ | split; [ | split ] ].
  - intros tx ns Hns. simpl executor. rewrite observe_promise.
    induction ns as [ | n ns IH ]; simpl; [ reflexivity | ].
    assert (Hv : verdict n = Pending).
    { destruct (Hns n (or_introl eq_refl)) as [ Hb Hi ].
      unfold verdict, invalidating. rewrite Hb.
      destruct (status n); simpl in *; try reflexivity;
        exfalso; apply Hi; tauto. }
    rewrite Hv. simpl. apply IH. intros m Hm. apply Hns. right. exact Hm.
  - intros tx pre post Hs. simpl executor in *.
    rewrite observe_promise in Hs.
    rewrite !observe_promise, first_verdict_app.
    destruct (first_verdict pre); simpl in Hs; congruence.
  - intros tx pre post. simpl executor. unfold observe.
    rewrite !deliveries_handled by reflexivity.
    rewrite length_app. lia.
  - intros tx r late Hr Hl.
    assert (Hlate : verdict late = Rejected (MkError "Invalid transaction")).
    { unfold verdict, invalidating. simpl in Hl.
      destruct Hl as [ H | [ H | [ H | [ H | [] ] ] ] ];
        rewrite <- H; reflexivity. }
    simpl executor. rewrite !observe_promise. simpl.
    rewrite Hlate. simpl. split; [ reflexivity | ].
    unfold verdict at 1 2. simpl. rewrite !scan_first_match. simpl.
    unfold Spec.matches.
    assert (Hf : failed r = false).
    { unfold failed, succeeded in *.
      apply String.eqb_eq in Hr. rewrite Hr.
      apply andb_false_r. }
    rewrite Hf, Hr. reflexivity.
Qed.

Lemma promise_settles_at_most_once_witness :
  promise (executor Sample.order
             (Notifications [Sample.notification Dropped []]))
  = Rejected (MkError "Invalid transaction")
  /\ promise (executor Sample.order
                (Notifications
                   [{| events := Some [Sample.mk_event "market"
                                                       "ExtrinsicSuccess"];
                       status := InBlock |};
                    Sample.notification Dropped []]))
     = Fulfilled true.
Proof.
  apply (proj2 (proj2 (proj2 promise_settles_at_most_once))
               Sample.order (Sample.mk_event "market" "ExtrinsicSuccess")
               (Sample.notification Dropped [])).
  - reflexivity.
  - simpl. tauto.
Defined.

(** C6, as stated, fails: after the stream [InBlock + success event] has
    resolved the promise the subscription still stands, and a later
    notification is still handed to the callback. *)
Lemma subscription_outlives_resolution :
  let ns := [Sample.notification InBlock [Sample.successEvent]] in
  let w := executor Sample.order (Notifications ns) in
  let w' := executor Sample.order
              (Notifications (ns ++ [Sample.notification Finalized []])) in
  promise w = Fulfilled true
  /\ subscribed w = true
  /\ handled w' = 2%nat.
Proof. simpl. repeat split. Qed.

(** C6, amended: [sendTx] never tears the subscription down.  On every
    stream of notifications the subscription opened by [signAndSend] still
    stands at the end, and the callback has handled every notification of
    the stream, those after the resolution included; only the settled
    promise is out of their reach. *)
Theorem subscription_is_never_torn_down tx ns :
  subscribed (executor tx (Notifications ns)) = true
  /\ handled (executor tx (Notifications ns)) = length ns.
Proof.
  simpl executor. unfold observe. split.
  - rewrite deliveries_subscribed. reflexivity.
  - rewrite deliveries_handled by reflexivity.
    unfold handled. simpl. lia.
Qed.

End Observer.
(** ** The scan of the event list *)

Module EventScan.
Import Promise Utils UtilsFacts.

Lemma other_module_failure_matches_nothing r :
  method (event r) = "ExtrinsicFailed" ->
  section (event r) <> "system" ->
  failed r = false /\ succeeded r = false.
Proof.
  intros Hm Hs. unfold failed, succeeded. rewrite Hm.
  apply String.eqb_neq in Hs. rewrite Hs. split; reflexivity.
Qed.

Lemma success_method_matches r :
  method (event r) = "ExtrinsicSuccess" ->
  failed r = false /\ succeeded r = true.
Proof.
  intros Hm. unfold failed, succeeded. rewrite Hm.
  split; [ apply andb_false_r | reflexivity ].
Qed.

(** C9: for an InBlock notification, the decision of the implementation's
    scan, which runs over every event and lets only the first resolution
    count, is the decision of a first-match scan that stops at the first
    event matching the failure or the success pattern.  In particular,
    when events of both kinds are present, the earlier one decides. *)
Theorem full_scan_is_first_match tx n w :
  status n = InBlock ->
  promise w = Pending ->
  promise (callback tx n w)
  = Spec.decided (Spec.first_match (events_or_default n))
  /\ (forall a r b d,
         events_or_default n = a ++ r :: b ->
         (forall x, In x a -> Spec.matches x = None) ->
         Spec.matches r = Some d ->
         promise (callback tx n w) = Fulfilled d).
Proof.
  intros Hst Hw.
  assert (Hc : promise (callback tx n w)
               = Spec.decided (Spec.first_match (events_or_default n))).
  { rewrite callback_promise, Hw. unfold verdict, invalidating.
    rewrite Hst. simpl. apply scan_first_match. }
  split; [ exact Hc | ].
  intros a r b d Hev Ha Hr.
  rewrite Hc, Hev, (first_match_at a r b d); auto.
Qed.

Lemma full_scan_is_first_match_witness :
  promise (callback Sample.order
             (Sample.notification InBlock
                [Sample.mk_event "balances" "Withdraw";
                 Sample.successEvent; Sample.failureEvent])
             (subscribe start))
  = Spec.decided
      (Spec.first_match
         [Sample.mk_event "balances" "Withdraw";
          Sample.successEvent; Sample.failureEvent]).
Proof.
  apply (full_scan_is_first_match
           Sample.order
           (Sample.notification InBlock
              [Sample.mk_event "balances" "Withdraw";
               Sample.successEvent; Sample.failureEvent])
           (subscribe start)); reflexivity.
Defined.

(** C10, as stated, fails: an event with method ExtrinsicSuccess does not
    resolve the outcome as success whatever precedes it.  After a
    system/ExtrinsicFailed event in the same list the outcome is [false]. *)
Lemma foreign_success_after_failure_is_rejected :
  let foreign := Sample.mk_event "market" "ExtrinsicSuccess" in
  let n := Sample.notification InBlock [Sample.failureEvent; foreign] in
  method (event foreign) = "ExtrinsicSuccess"
  /\ In foreign (events_or_default n)
  /\ promise (executor Sample.order (Notifications [n])) = Fulfilled false.
Proof. simpl. repeat split. right. left. reflexivity. Qed.

(** C10, amended: the two patterns differ in module scoping.  In an
    InBlock notification an event with method ExtrinsicFailed counts only
    when its module is system: then, on a pending promise and with no
    ExtrinsicSuccess event before it, it resolves with [false]; from any
    other module it is ignored, the callback does what it does without that
    event.  An event with method ExtrinsicSuccess resolves with [true]
    whatever its module, provided the promise is still pending and no
    system/ExtrinsicFailed event comes before it in the list. *)
Theorem module_scoping_is_asymmetric tx w :
  (forall r a b,
      method (event r) = "ExtrinsicFailed" ->
      section (event r) <> "system" ->
      on_event tx w r = w
      /\ callback tx {| events := Some (a ++ r :: b); status := InBlock |} w
         = callback tx {| events := Some (a ++ b); status := InBlock |} w)
  /\ (forall r a b,
         method (event r) = "ExtrinsicFailed" ->
         section (event r) = "system" ->
         promise w = Pending ->
         (forall x, In x a -> succeeded x = false) ->
         promise (callback tx {| events := Some (a ++ r :: b);
                                 status := InBlock |} w)
         = Fulfilled false)
  /\ (forall r a b,
         method (event r) = "ExtrinsicSuccess" ->
         promise w = Pending ->
         (forall x, In x a -> failed x = false) ->
         promise (callback tx {| events := Some (a ++ r :: b);
                                 status := InBlock |} w)
         = Fulfilled true).
Proof.
  split; [ | split ].
  - intros r a b Hm Hs.
    destruct (other_module_failure_matches_nothing r Hm Hs) as [Hf Hsucc].
    assert (Hev : forall w', on_event tx w' r = w')
      by (intros w'; unfold on_event; rewrite Hf, Hsucc; reflexivity).
    split; [ apply Hev | ].
    unfold callback, forEach, events_or_default. simpl.
    rewrite !fold_left_app. simpl. rewrite Hev. reflexivity.
  - intros r a b Hm Hs Hw Ha.
    assert (Hf : failed r = true)
      by (unfold failed; rewrite Hm, Hs; reflexivity).
    rewrite callback_promise, Hw.
    change (verdict {| events := Some (a ++ r :: b); status := InBlock |})
      with (scan (a ++ r :: b)).
    rewrite scan_first_match, (first_match_at a r b false); auto.
    + intros x Hx. unfold Spec.matches. rewrite (Ha x Hx).
      destruct (failed x); auto.
    + unfold Spec.matches. rewrite Hf. reflexivity.
  - intros r a b Hm Hw Ha.
    destruct (success_method_matches r Hm) as [Hf Hsucc].
    rewrite callback_promise, Hw.
    change (verdict {| events := Some (a ++ r :: b); status := InBlock |})
      with (scan (a ++ r :: b)).
    rewrite scan_first_match, (first_match_at a r b true); auto.
    + intros x Hx. unfold Spec.matches. rewrite (Ha x Hx).
      destruct (succeeded x); auto.
    + unfold Spec.matches. rewrite Hf, Hsucc. reflexivity.
Qed.

Lemma module_scoping_is_asymmetric_witness :
  callback Sample.order
    {| events := Some ([Sample.mk_event "balances" "Withdraw"]
                         ++ Sample.mk_event "market" "ExtrinsicFailed"
                         :: [Sample.mk_event "system" "ExtrinsicSuccess"]);
       status := InBlock |} (subscribe start)
  = callback Sample.order
      {| events := Some ([Sample.mk_event "balances" "Withdraw"]
                           ++ [Sample.mk_event "system" "ExtrinsicSuccess"]);
         status := InBlock |} (subscribe start)
  /\ promise (callback Sample.order
                {| events := Some ([Sample.mk_event "market" "ExtrinsicFailed"]
                                     ++ Sample.mk_event "system" "ExtrinsicFailed"
                                     :: [Sample.successEvent]);
                   status := InBlock |} (subscribe start))
     = Fulfilled false
  /\ promise (callback Sample.order
                {| events := Some ([Sample.mk_event "market" "ExtrinsicFailed"]
                                     ++ Sample.mk_event "market" "ExtrinsicSuccess"
                                     :: [Sample.failureEvent]);
                   status := InBlock |} (subscribe start))
     = Fulfilled true.
Proof.
  split; [ | split ].
  - apply (proj1 (module_scoping_is_asymmetric Sample.order (subscribe start))
                 (Sample.mk_event "market" "ExtrinsicFailed")
                 [Sample.mk_event "balances" "Withdraw"]
                 [Sample.mk_event "system" "ExtrinsicSuccess"]).
    + reflexivity.
    + simpl. discriminate.
  - apply (proj1 (proj2 (module_scoping_is_asymmetric
                           Sample.order (subscribe start)))
                 (Sample.mk_event "system" "ExtrinsicFailed")
                 [Sample.mk_event "market" "ExtrinsicFailed"]
                 [Sample.successEvent]).
    + reflexivity.
    + reflexivity.
    + reflexivity.
    + intros x [ Hx | [] ]. subst x. reflexivity.
  - apply (proj2 (proj2 (module_scoping_is_asymmetric
                           Sample.order (subscribe start)))
                 (Sample.mk_event "market" "ExtrinsicSuccess")
                 [Sample.mk_event "market" "ExtrinsicFailed"]
                 [Sample.failureEvent]).
    + reflexivity.
    + reflexivity.
    + intros x [ Hx | [] ]. subst x. reflexivity.
Defined.

End EventScan.

(** ** The pipeline *)

Module PipelineFacts.
Import Promise Async.

(** Runs the monad's operations in the goal. *)
Ltac run :=
  cbv beta iota zeta delta [bind call emit ret catch trace outcome throwing
                            answers invoke assign_result
                            Requester_success_call set_result data
                            resp_status console_log_ console_error_
                            fst snd].

Ltac run_in H :=
  cbv beta iota zeta delta [bind call emit ret catch trace outcome throwing
                            answers invoke assign_result
                            Requester_success_call set_result data
                            resp_status console_log_ console_error_
                            fst snd] in H.

Ltac flat :=
  cbv beta iota zeta delta [protocol answer_success answer_error after
                            invoke ret trace outcome set_result data
                            resp_status fst snd].

Ltac flat_in H :=
  cbv beta iota zeta delta [protocol answer_success answer_error after
                            invoke ret trace outcome set_result data
                            resp_status fst snd] in H.

Lemma callbacks_calls t : callbacks (calls t) = callbacks t.
Proof.
  unfold calls.
  induction t as [ | e t IH ]; simpl; [ reflexivity | ].
  destruct e; simpl; rewrite ?IH; reflexivity.
Qed.

Lemma submissions_calls t : submissions (calls t) = submissions t.
Proof.
  unfold calls.
  induction t as [ | e t IH ]; simpl; [ reflexivity | ].
  destruct e; simpl; rewrite ?IH; reflexivity.
Qed.

(** Every branch of the then-body and of the catch. *)
Ltac branches env callback :=
  repeat match goal with
    | |- context [ Requester_request env ?c ?f ] =>
        destruct (Requester_request env c f) as [ [ st [ d | s | ] ] | e1 | ]; run
    | |- context [ files_stat env ?o ?p ] =>
        destruct (files_stat env o p) as [ stat | e2 | ]; run
    | |- context [ isReadyOrError env ?n ] =>
        destruct (isReadyOrError env n) as [ [] | e3 | ]; run
    | |- context [ Utils.promise ?w ] =>
        destruct (Utils.promise w) as [ | [ | ] | e4 ]; run
    | |- context [ callback ?s ?p ] =>
        destruct (callback s p) as [ e5 | ]; run
    end.

(** [src/index.js], once the request is validated, the client created and
    the swarm connection over, runs the protocol. *)
Lemma index_reached env callback request v :
  Validator env request = inl v ->
  create env (Index.ipfsClientOptions env v) = inl tt ->
  (truthy (hostNode (validated_data v)) = true ->
   swarm_connect env (Index.ipfsClientOptions env v)
                 (show (hostNode (validated_data v))) <> Hang) ->
  calls (trace (Index.createRequest env callback request))
  = trace (protocol env callback (validated_id v) (cid (validated_data v))
                    (Index.ipfsConfig env v) (inl tt)
                    (Index.ipfsClientOptions env v)
                    (Index.nodeUrl env v) (Index.seeds env v))
  /\ outcome (Index.createRequest env callback request)
     = outcome (protocol env callback (validated_id v) (cid (validated_data v))
                         (Index.ipfsConfig env v) (inl tt)
                         (Index.ipfsClientOptions env v)
                         (Index.nodeUrl env v) (Index.seeds env v)).
Proof.
  intros Hvalid Hcreate Hswarm.
  unfold Index.createRequest, Index.on_response, Index.on_error, await_sendTx.
  rewrite Hvalid. run. rewrite Hcreate. run. flat.
  destruct (truthy (hostNode (validated_data v)));
    [ destruct (swarm_connect env (Index.ipfsClientOptions env v)
                              (show (hostNode (validated_data v))))
        as [ [] | err | ];
      [ | | exfalso; apply Hswarm; reflexivity ] | ];
    run; branches env callback; split; reflexivity.
Qed.

(** What is thrown before the pin request is not answered. *)
Lemma index_unreached env callback request :
  (forall e,
      Validator env request = inr e ->
      Index.createRequest env callback request = ([], Throw e))
  /\ (forall v e,
         Validator env request = inl v ->
         create env (Index.ipfsClientOptions env v) = inr e ->
         Index.createRequest env callback request = ([], Throw e))
  /\ (forall v,
         Validator env request = inl v ->
         create env (Index.ipfsClientOptions env v) = inl tt ->
         truthy (hostNode (validated_data v)) = true ->
         swarm_connect env (Index.ipfsClientOptions env v)
                       (show (hostNode (validated_data v))) = Hang ->
         calls (trace (Index.createRequest env callback request)) = []
         /\ outcome (Index.createRequest env callback request) = Hang).
Proof.
  unfold Index.createRequest.
  split; [ | split ].
  - intros e H. rewrite H. reflexivity.
  - intros v e H K. rewrite H. run. rewrite K. reflexivity.
  - intros v H K Ht Hs. rewrite H. run. rewrite K. run. rewrite Ht, Hs.
    split; reflexivity.
Qed.

(** The other revision runs the protocol with the client it creates after
    the pin request. *)
Lemma part000_reached env callback request v :
  Validator env request = inl v ->
  calls (trace (Part000.createRequest env callback request))
  = trace (protocol env callback (validated_id v) (cid (validated_data v))
                    (Part000.ipfsConfig env v)
                    (create env (Part000.ipfsClientOptions
                                   (Part000.pinHost env v)))
                    (Part000.ipfsClientOptions (Part000.pinHost env v))
                    (Part000.nodeUrl env v) (Part000.seeds env v))
  /\ outcome (Part000.createRequest env callback request)
     = outcome (protocol env callback (validated_id v) (cid (validated_data v))
                         (Part000.ipfsConfig env v)
                         (create env (Part000.ipfsClientOptions
                                        (Part000.pinHost env v)))
                         (Part000.ipfsClientOptions (Part000.pinHost env v))
                         (Part000.nodeUrl env v) (Part000.seeds env v)).
Proof.
  intros Hvalid.
  unfold Part000.createRequest, Part000.on_response, Part000.on_error,
    await_sendTx.
  rewrite Hvalid. run. flat.
  destruct (Requester_request env (Part000.ipfsConfig env v) customError)
    as [ [ st [ d | s | ] ] | e1 | ]; run;
    try (destruct (create env (Part000.ipfsClientOptions
                                 (Part000.pinHost env v))) as [ [] | e0 ]; run);
    branches env callback; split; reflexivity.
Qed.

Lemma part000_unreached env callback request e :
  Validator env request = inr e ->
  Part000.createRequest env callback request = ([], Throw e).
Proof.
  intros H. unfold Part000.createRequest. rewrite H. reflexivity.
Qed.

(** [sendTx] when the keyring pair loads. *)
Lemma sendTx_executor addFromUri signAndSend tx seeds krp :
  addFromUri "sr25519" seeds = inl krp ->
  Utils.sendTx addFromUri signAndSend tx seeds
  = Utils.executor tx (signAndSend tx krp).
Proof.
  intros Hkr. unfold Utils.sendTx, Utils.loadKeyringPair.
  rewrite Hkr. reflexivity.
Qed.

End PipelineFacts.

Module ProtocolFacts.
Import Promise Async PipelineFacts.

(** The protocol when the pin request, the client, the size lookup and the
    chain connection have answered: it goes on to [sendTx]. *)
Lemma protocol_submits env callback jobRunID c cfg opts node seeds
      response stat :
  Requester_request env cfg customError = Ret response ->
  files_stat env opts ("/ipfs/" ++ c) = Ret stat ->
  isReadyOrError env node = Ret tt ->
  protocol env callback jobRunID c cfg (inl tt) opts node seeds
  = after (Request cfg)
      (after (FilesStat opts ("/ipfs/" ++ c))
         (after (ChainReady node)
            (after (BuildTx (placeStorageOrder c (cumulativeSize stat) 0))
               (after (SendTx (placeStorageOrder c (cumulativeSize stat) 0)
                              seeds
                              (Utils.sendTx (addFromUri env) (signAndSend env)
                                 (placeStorageOrder c (cumulativeSize stat) 0)
                                 seeds))
                  match Utils.promise
                          (Utils.sendTx (addFromUri env) (signAndSend env)
                             (placeStorageOrder c (cumulativeSize stat) 0)
                             seeds) with
                  | Pending => ([], Hang)
                  | Fulfilled _ =>
                      answer_success env callback jobRunID c response
                  | Rejected e => answer_error callback jobRunID e
                  end)))).
Proof.
  intros Hreq Hstat Hready. unfold protocol.
  rewrite Hreq, Hstat, Hready. reflexivity.
Qed.

(** Whatever the protocol builds is the order for the looked-up size. *)
Lemma protocol_builds env callback jobRunID c cfg client opts node seeds tx :
  In (BuildTx tx)
     (trace (protocol env callback jobRunID c cfg client opts node seeds)) ->
  exists response stat u,
    Requester_request env cfg customError = Ret response
    /\ files_stat env opts ("/ipfs/" ++ c) = Ret stat
    /\ isReadyOrError env node = Ret u
    /\ tx = placeStorageOrder c (cumulativeSize stat) 0.
Proof.
  unfold protocol.
  destruct (Requester_request env cfg customError)
    as [ [ st body ] | e1 | ] eqn:Hreq;
    [ destruct client as [ [] | e0 ];
      [ destruct (files_stat env opts ("/ipfs/" ++ c))
          as [ stat | e2 | ] eqn:Hstat;
        [ destruct (isReadyOrError env node) as [ u | e3 | ] eqn:Hready | | ]
      | ]
    | | ];
    flat; intros H;
    try (destruct body as [ d | s | ]; flat_in H);
    repeat match type of H with
      | context [ Utils.promise ?w ] =>
          destruct (Utils.promise w) as [ | b | e4 ]; flat_in H
      | context [ callback ?s ?p ] =>
          destruct (callback s p) as [ e5 | ]; flat_in H
      end;
    simpl in H;
    repeat (destruct H as [ H | H ]; try discriminate H);
    try contradiction;
    inversion H; eauto 8.
Qed.

Lemma in_calls e t :
  is_console e = false -> is_swarm_connect e = false ->
  In e t <-> In e (calls t).
Proof.
  intros Hc Hs. unfold calls. rewrite filter_In, Hc, Hs. simpl. tauto.
Qed.

(** A run of [src/index.js] either stops before the pin request, with
    nothing said to the caller and no normal end, or runs the protocol. *)
Lemma index_cases env callback request :
  (calls (trace (Index.createRequest env callback request)) = []
   /\ outcome (Index.createRequest env callback request) <> Ret tt)
  \/ (exists v,
         Validator env request = inl v
         /\ create env (Index.ipfsClientOptions env v) = inl tt
         /\ calls (trace (Index.createRequest env callback request))
            = trace (protocol env callback (validated_id v)
                              (cid (validated_data v))
                              (Index.ipfsConfig env v) (inl tt)
                              (Index.ipfsClientOptions env v)
                              (Index.nodeUrl env v) (Index.seeds env v))
         /\ outcome (Index.createRequest env callback request)
            = outcome (protocol env callback (validated_id v)
                                (cid (validated_data v))
                                (Index.ipfsConfig env v) (inl tt)
                                (Index.ipfsClientOptions env v)
                                (Index.nodeUrl env v) (Index.seeds env v))).
Proof.
  destruct (index_unreached env callback request) as (Hv & Hc & Hs).
  destruct (Validator env request) as [ v | e ] eqn:Hvalid.
  - destruct (create env (Index.ipfsClientOptions env v)) as [ [] | e ]
      eqn:Hcreate.
    + destruct (truthy (hostNode (validated_data v))) eqn:Hhost.
      * destruct (swarm_connect env (Index.ipfsClientOptions env v)
                                (show (hostNode (validated_data v))))
          as [ u | e | ] eqn:Hswarm.
        -- right. exists v.
           destruct (index_reached env callback request v Hvalid Hcreate)
             as [ H1 H2 ]; [ rewrite Hswarm; discriminate | auto ].
        -- right. exists v.
           destruct (index_reached env callback request v Hvalid Hcreate)
             as [ H1 H2 ]; [ rewrite Hswarm; discriminate | auto ].
        -- left. destruct (Hs v eq_refl Hcreate Hhost Hswarm) as [ H1 H2 ].
           split; [ exact H1 | rewrite H2; discriminate ].
      * right. exists v.
        destruct (index_reached env callback request v Hvalid Hcreate)
          as [ H1 H2 ]; [ intros K; rewrite Hhost in K; discriminate K | auto ].
    + left. rewrite (Hc v e eq_refl Hcreate).
      split; [ reflexivity | discriminate ].
  - left. rewrite (Hv e eq_refl). split; [ reflexivity | discriminate ].
Qed.

Lemma part000_cases env callback request :
  (calls (trace (Part000.createRequest env callback request)) = []
   /\ outcome (Part000.createRequest env callback request) <> Ret tt)
  \/ (exists v,
         Validator env request = inl v
         /\ calls (trace (Part000.createRequest env callback request))
            = trace (protocol env callback (validated_id v)
                              (cid (validated_data v))
                              (Part000.ipfsConfig env v)
                              (create env (Part000.ipfsClientOptions
                                             (Part000.pinHost env v)))
                              (Part000.ipfsClientOptions
                                 (Part000.pinHost env v))
                              (Part000.nodeUrl env v) (Part000.seeds env v))
         /\ outcome (Part000.createRequest env callback request)
            = outcome (protocol env callback (validated_id v)
                                (cid (validated_data v))
                                (Part000.ipfsConfig env v)
                                (create env (Part000.ipfsClientOptions
                                               (Part000.pinHost env v)))
                                (Part000.ipfsClientOptions
                                   (Part000.pinHost env v))
                                (Part000.nodeUrl env v)
                                (Part000.seeds env v))).
Proof.
  destruct (Validator env request) as [ v | e ] eqn:Hvalid.
  - right. exists v.
    destruct (part000_reached env callback request v Hvalid) as [ H1 H2 ].
    auto.
  - left. rewrite (part000_unreached env callback request e Hvalid).
    split; [ reflexivity | discriminate ].
Qed.

End ProtocolFacts.

Module Pipeline.
Import Promise Async Utils UtilsFacts PipelineFacts ProtocolFacts.

(** C1 is violated by the code on the input of the specification's third
    scenario: the transaction is included in a block and its execution
    fails.  [sendTx] resolves with [false], the pipeline writes its
    failure line to the console, and then tells the caller exactly what it
    tells them on success. *)
Theorem rejected_is_reported_as_success :
  let failing :=
    Sample.env (Notifications
                  [Sample.notification InBlock [Sample.failureEvent]]) in
  let passing :=
    Sample.env (Notifications
                  [Sample.notification InBlock [Sample.successEvent]]) in
  promise (sendTx (addFromUri failing) (signAndSend failing)
                  Sample.order (Some "//Alice")) = Fulfilled false
  /\ promise (sendTx (addFromUri passing) (signAndSend passing)
                     Sample.order (Some "//Alice")) = Fulfilled true
  /\ In (Console (console_error PublishFailed))
        (trace (Index.createRequest failing Sample.returns Sample.request))
  /\ callbacks (trace (Index.createRequest failing Sample.returns
                                           Sample.request))
     = [(200%Z, Requester_success "1"
                  (set_result Sample.pin_response "QmTest1"))]
  /\ callbacks (trace (Index.createRequest failing Sample.returns
                                           Sample.request))
     = callbacks (trace (Index.createRequest passing Sample.returns
                                             Sample.request)).
Proof.
  cbv zeta. repeat split; try reflexivity.
  vm_compute. tauto.
Qed.

(** C4, as stated, fails: an InBlock notification whose event list holds
    an ExtrinsicSuccess event after a system/ExtrinsicFailed event
    resolves the promise with [false]. *)
Lemma success_after_failure_is_rejected :
  let n := Sample.notification InBlock
             [Sample.failureEvent; Sample.successEvent] in
  In Sample.successEvent (events_or_default n)
  /\ succeeded Sample.successEvent = true
  /\ promise (executor Sample.order (Notifications [n])) = Fulfilled false.
Proof. simpl. repeat split. right. left. reflexivity. Qed.

(** C4, amended: when the promise is still pending as an InBlock
    notification arrives whose event list holds an ExtrinsicSuccess event
    with no system/ExtrinsicFailed event before it, [sendTx] resolves with
    [true] at that notification, whatever follows it and whether or not a
    Finalized notification ever comes.  When moreover the body of the pin
    response is an object and the callback returns, the pipeline reports
    the content identifier as the result to its caller, once. *)
Theorem success_event_confirms env callback request input response d stat krp
        pre n a r b post :
  Validator env request = inl input ->
  create env (Index.ipfsClientOptions env input) = inl tt ->
  (truthy (hostNode (validated_data input)) = true ->
   swarm_connect env (Index.ipfsClientOptions env input)
                 (show (hostNode (validated_data input))) <> Hang) ->
  Requester_request env (Index.ipfsConfig env input) customError
  = Ret response ->
  data response = object d ->
  files_stat env (Index.ipfsClientOptions env input)
             ("/ipfs/" ++ cid (validated_data input)) = Ret stat ->
  isReadyOrError env (Index.nodeUrl env input) = Ret tt ->
  addFromUri env "sr25519" (Index.seeds env input) = inl krp ->
  signAndSend env (placeStorageOrder (cid (validated_data input))
                                     (cumulativeSize stat) 0) krp
  = Notifications (pre ++ n :: post) ->
  promise (observe (placeStorageOrder (cid (validated_data input))
                                      (cumulativeSize stat) 0) pre)
  = Pending ->
  status n = InBlock ->
  events n = Some (a ++ r :: b) ->
  succeeded r = true ->
  (forall x, In x a -> failed x = false) ->
  callback (resp_status response)
           (Requester_success (validated_id input)
              (set_result response (cid (validated_data input)))) = None ->
  let tx := placeStorageOrder (cid (validated_data input))
                              (cumulativeSize stat) 0 in
  promise (observe tx (pre ++ [n])) = Fulfilled true
  /\ promise (sendTx (addFromUri env) (signAndSend env) tx
                     (Index.seeds env input)) = Fulfilled true
  /\ callbacks (trace (Index.createRequest env callback request))
     = [(resp_status response,
         Requester_success (validated_id input)
           (set_result response (cid (validated_data input))))]
  /\ data (set_result response (cid (validated_data input)))
     = object {| fields := fields d;
                 result := Some (cid (validated_data input)) |}.
Proof.
  intros Hvalid Hcreate Hswarm Hreq Hbody Hstat Hready Hkr Hsub Hpre Hst Hev
         Hr Ha Hcb tx.
  rewrite observe_promise in Hpre.
  assert (Hv : verdict n = Fulfilled true).
  { unfold verdict, invalidating, events_or_default.
    rewrite Hst, Hev. simpl. rewrite scan_first_match.
    rewrite (first_match_at a r b true); [ reflexivity | | ].
    - intros x Hx. unfold Spec.matches. rewrite (Ha x Hx).
      destruct (succeeded x); auto.
    - unfold Spec.matches.
      assert (Hf : failed r = false).
      { unfold failed, succeeded in *. apply String.eqb_eq in Hr.
        rewrite Hr. apply andb_false_r. }
      rewrite Hf, Hr. reflexivity. }
  assert (Hat : forall post', promise (observe tx (pre ++ n :: post'))
                              = Fulfilled true).
  { intros post'. rewrite observe_promise, first_verdict_app, Hpre.
    simpl. rewrite Hv. reflexivity. }
  assert (Hp : promise (sendTx (addFromUri env) (signAndSend env) tx
                               (Index.seeds env input)) = Fulfilled true).
  { rewrite (sendTx_executor _ _ _ _ krp Hkr). unfold tx. rewrite Hsub.
    apply Hat. }
  split; [ apply Hat | ]. split; [ exact Hp | ]. split.
  - rewrite <- callbacks_calls.
    rewrite (proj1 (index_reached env callback request input
                                  Hvalid Hcreate Hswarm)).
    rewrite (protocol_submits _ _ _ _ _ _ _ _ response stat Hreq Hstat Hready).
    fold tx. rewrite Hp. unfold answer_success. rewrite Hbody.
    cbv zeta. rewrite Hcb. reflexivity.
  - unfold set_result. rewrite Hbody. reflexivity.
Qed.

Lemma success_event_confirms_witness :
  callbacks
    (trace (Index.createRequest
              (Sample.env
                 (Notifications
                    ([Sample.notification Ready []]
                       ++ Sample.notification InBlock
                            ([] ++ Sample.successEvent :: [])
                       :: [Sample.notification Dropped []])))
              Sample.returns Sample.request))
  = [(200%Z, Requester_success "1" (set_result Sample.pin_response "QmTest1"))].
Proof.
  apply (success_event_confirms
           (Sample.env
              (Notifications
                 ([Sample.notification Ready []]
                    ++ Sample.notification InBlock
                         ([] ++ Sample.successEvent :: [])
                    :: [Sample.notification Dropped []])))
           Sample.returns Sample.request Sample.input Sample.pin_response
           {| fields := [("Pins", "QmTest1")]; result := None |}
           {| cumulativeSize := 1024 |}
           Sample.pair
           [Sample.notification Ready []]
           (Sample.notification InBlock ([] ++ Sample.successEvent :: []))
           [] Sample.successEvent [] [Sample.notification Dropped []]);
    try reflexivity.
  - intros H. discriminate H.
  - intros x [].
Defined.

(** C7, as stated, fails: a failed submission is not a channel of its own.
    It rejects the promise, which is what an invalidating notification
    does as well, and the pipeline answers both with status 500 and
    [Requester.errored]; when the cause reads [Invalid transaction] the
    caller is told the very same thing in both cases. *)
Lemma submission_failure_shares_the_rejection_channel :
  let refused := SubmitFailed (MkError "connection refused") in
  let failing := SubmitFailed (MkError "Invalid transaction") in
  let dropped := Notifications [Sample.notification Dropped []] in
  channel_of (promise (executor Sample.order refused))
  = channel_of (promise (executor Sample.order dropped))
  /\ callbacks (trace (Index.createRequest (Sample.env refused)
                                           Sample.returns Sample.request))
     = [(500%Z, Requester_errored "1" (MkError "connection refused"))]
  /\ callbacks (trace (Index.createRequest (Sample.env dropped)
                                           Sample.returns Sample.request))
     = [(500%Z, Requester_errored "1" (MkError "Invalid transaction"))]
  /\ callbacks (trace (Index.createRequest (Sample.env failing)
                                           Sample.returns Sample.request))
     = callbacks (trace (Index.createRequest (Sample.env dropped)
                                             Sample.returns Sample.request)).
Proof. cbv zeta. repeat split. Qed.

(** C7, amended: when the submission call itself fails, the promise of
    [sendTx] is rejected with the underlying cause as it is, through the
    rejection channel that invalidating notifications use too (so it
    differs from both fulfilled outcomes, and from an invalidation only
    by the error it carries); no subscription is established and the
    callback handles no notification; the pipeline reports status 500
    with [Requester.errored] of that cause to its caller. *)
Theorem submission_failure_is_surfaced env callback request input response
        stat krp e :
  Validator env request = inl input ->
  create env (Index.ipfsClientOptions env input) = inl tt ->
  (truthy (hostNode (validated_data input)) = true ->
   swarm_connect env (Index.ipfsClientOptions env input)
                 (show (hostNode (validated_data input))) <> Hang) ->
  Requester_request env (Index.ipfsConfig env input) customError
  = Ret response ->
  files_stat env (Index.ipfsClientOptions env input)
             ("/ipfs/" ++ cid (validated_data input)) = Ret stat ->
  isReadyOrError env (Index.nodeUrl env input) = Ret tt ->
  addFromUri env "sr25519" (Index.seeds env input) = inl krp ->
  signAndSend env (placeStorageOrder (cid (validated_data input))
                                     (cumulativeSize stat) 0) krp
  = SubmitFailed e ->
  let w := sendTx (addFromUri env) (signAndSend env)
                  (placeStorageOrder (cid (validated_data input))
                                     (cumulativeSize stat) 0)
                  (Index.seeds env input) in
  promise w = Rejected e
  /\ channel_of (promise w) = Some Rejection
  /\ (forall b, promise w <> Fulfilled b)
  /\ subscribed w = false
  /\ handled w = 0%nat
  /\ callbacks (trace (Index.createRequest env callback request))
     = [(500%Z, Requester_errored (validated_id input) e)].
Proof.
  intros Hvalid Hcreate Hswarm Hreq Hstat Hready Hkr Hsub w.
  assert (Hw : w = do_reject e start).
  { unfold w. rewrite (sendTx_executor _ _ _ _ krp Hkr), Hsub. reflexivity. }
  rewrite <- callbacks_calls.
  rewrite (proj1 (index_reached env callback request input
                                Hvalid Hcreate Hswarm)).
  rewrite (protocol_submits _ _ _ _ _ _ _ _ response stat Hreq Hstat Hready).
  fold w. rewrite Hw. simpl.
  repeat split. intros b. discriminate.
Qed.

Lemma submission_failure_is_surfaced_witness :
  callbacks
    (trace (Index.createRequest
              (Sample.env (SubmitFailed (MkError "connection refused")))
              Sample.returns Sample.request))
  = [(500%Z, Requester_errored "1" (MkError "connection refused"))].
Proof.
  apply (submission_failure_is_surfaced
           (Sample.env (SubmitFailed (MkError "connection refused")))
           Sample.returns Sample.request
           Sample.input Sample.pin_response {| cumulativeSize := 1024 |}
           Sample.pair (MkError "connection refused"));
    try reflexivity.
  intros H. discriminate H.
Defined.

(** C8: whenever the pipeline builds the place-storage-order transaction,
    in either revision, its arguments are the content identifier of the
    request, the cumulative size that the size lookup for
    [/ipfs/<contentId>] returned, and the replica count 0. *)
Theorem order_is_built_from_the_size_lookup env callback request tx :
  (In (BuildTx tx) (trace (Index.createRequest env callback request)) ->
   exists input stat,
     Validator env request = inl input
     /\ files_stat env (Index.ipfsClientOptions env input)
                   ("/ipfs/" ++ cid (validated_data input)) = Ret stat
     /\ tx = placeStorageOrder (cid (validated_data input))
                               (cumulativeSize stat) 0)
  /\ (In (BuildTx tx) (trace (Part000.createRequest env callback request)) ->
      exists input stat,
        Validator env request = inl input
        /\ files_stat env (Part000.ipfsClientOptions
                             (Part000.pinHost env input))
                      ("/ipfs/" ++ cid (validated_data input)) = Ret stat
        /\ tx = placeStorageOrder (cid (validated_data input))
                                  (cumulativeSize stat) 0).
Proof.
  split; intros H; apply in_calls in H; try reflexivity.
  - destruct (index_cases env callback request)
      as [ [ Hnone _ ] | (v & Hvalid & _ & Hcalls & _) ].
    + rewrite Hnone in H. contradiction.
    + rewrite Hcalls in H.
      destruct (protocol_builds _ _ _ _ _ _ _ _ _ _ H)
        as (response & stat & u & _ & Hstat & _ & Htx).
      exists v, stat. auto.
  - destruct (part000_cases env callback request)
      as [ [ Hnone _ ] | (v & Hvalid & Hcalls & _) ].
    + rewrite Hnone in H. contradiction.
    + rewrite Hcalls in H.
      destruct (protocol_builds _ _ _ _ _ _ _ _ _ _ H)
        as (response & stat & u & _ & Hstat & _ & Htx).
      exists v, stat. auto.
Qed.

Lemma order_is_built_from_the_size_lookup_witness :
  exists input stat,
    Validator (Sample.env (Notifications [])) Sample.request = inl input
    /\ files_stat (Sample.env (Notifications []))
                  (Index.ipfsClientOptions (Sample.env (Notifications []))
                                           input)
                  ("/ipfs/" ++ cid (validated_data input)) = Ret stat
    /\ placeStorageOrder "QmTest1" 1024 0
       = placeStorageOrder (cid (validated_data input)) (cumulativeSize stat) 0.
Proof.
  apply (proj1 (order_is_built_from_the_size_lookup
                  (Sample.env (Notifications [])) Sample.returns
                  Sample.request (placeStorageOrder "QmTest1" 1024 0))).
  vm_compute. tauto.
Defined.

End Pipeline.

(** ** What the observer's outcomes stand for *)

Module OutcomeFacts.
Import Promise Utils UtilsFacts.

Lemma matches_none r :
  Spec.matches r = None <-> failed r = false /\ succeeded r = false.
Proof.
  unfold Spec.matches.
  destruct (failed r); destruct (succeeded r); split;
    intros H; try discriminate H; try (destruct H; discriminate); auto.
Qed.

Lemma first_match_none evs :
  Spec.first_match evs = None <->
  (forall r, In r evs -> failed r = false /\ succeeded r = false).
Proof.
  induction evs as [ | x evs IH ]; simpl.
  - split; [ intros _ r [] | reflexivity ].
  - destruct (Spec.matches x) as [ d | ] eqn:Hx.
    + split; [ discriminate | ].
      intros H.
      pose proof (proj2 (matches_none x) (H x (or_introl eq_refl))).
      congruence.
    + rewrite IH. split.
      * intros H r [ Hr | Hr ]; [ subst r; apply matches_none, Hx | auto ].
      * intros H r Hr. apply H. right. exact Hr.
Qed.

Lemma first_match_some evs d :
  Spec.first_match evs = Some d ->
  exists a r b,
    evs = a ++ r :: b
    /\ Spec.matches r = Some d
    /\ (forall x, In x a -> failed x = false /\ succeeded x = false).
Proof.
  induction evs as [ | x evs IH ]; simpl; [ discriminate | ].
  destruct (Spec.matches x) as [ d' | ] eqn:Hx; intros H.
  - exists [], x, evs.
    split; [ reflexivity | ]. split; [ congruence | intros y [] ].
  - destruct (IH H) as (a & r & b & Hev & Hr & Ha).
    exists (x :: a), r, b. rewrite Hev.
    split; [ reflexivity | ]. split; [ exact Hr | ].
    intros y [ Hy | Hy ]; [ subst y; apply matches_none, Hx | auto ].
Qed.

Lemma first_verdict_pending ns :
  first_verdict ns = Pending <-> (forall n, In n ns -> verdict n = Pending).
Proof.
  induction ns as [ | m ns IH ]; simpl.
  - split; [ intros _ n [] | reflexivity ].
  - destruct (verdict m) eqn:Hm; simpl.
    + rewrite IH. split.
      * intros H n [ Hn | Hn ]; [ subst n; exact Hm | auto ].
      * intros H n Hn. apply H. right. exact Hn.
    + split; [ discriminate | ].
      intros H. specialize (H m (or_introl eq_refl)). congruence.
    + split; [ discriminate | ].
      intros H. specialize (H m (or_introl eq_refl)). congruence.
Qed.

Lemma first_verdict_settled ns p :
  first_verdict ns = p ->
  settled p = true ->
  exists pre n post,
    ns = pre ++ n :: post
    /\ (forall m, In m pre -> verdict m = Pending)
    /\ verdict n = p.
Proof.
  induction ns as [ | m ns IH ]; simpl; intros H Hp.
  - subst p. discriminate Hp.
  - destruct (settled (verdict m)) eqn:Hm.
    + exists [], m, ns.
      split; [ reflexivity | ]. split; [ intros x [] | exact H ].
    + destruct (IH H Hp) as (pre & n & post & Hns & Hpre & Hn).
      exists (m :: pre), n, post. rewrite Hns.
      split; [ reflexivity | ]. split; [ | exact Hn ].
      intros x [ Hx | Hx ]; [ subst x | auto ].
      destruct (verdict m); simpl in Hm; congruence.
Qed.

(** One notification, read back from its verdict. *)
Lemma verdict_fulfilled n d :
  verdict n = Fulfilled d ->
  status n = InBlock /\ Spec.first_match (events_or_default n) = Some d.
Proof.
  unfold verdict. intros H.
  destruct (invalidating (status n)); [ discriminate H | ].
  destruct (isInBlock (status n)) eqn:Hb; [ | discriminate H ].
  split; [ destruct (status n); simpl in Hb; congruence | ].
  rewrite scan_first_match in H.
  destruct (Spec.first_match (events_or_default n)); simpl in H; congruence.
Qed.

Lemma verdict_rejected n e :
  verdict n = Rejected e ->
  e = MkError "Invalid transaction"
  /\ In (status n) [Invalid; Dropped; Usurped; Retracted].
Proof.
  unfold verdict. intros H.
  destruct (invalidating (status n)) eqn:Hi.
  - split; [ congruence | ].
    unfold invalidating in Hi. destruct (status n); simpl in *;
      try discriminate Hi; tauto.
  - destruct (isInBlock (status n)); [ | discriminate H ].
    rewrite scan_first_match in H.
    destruct (Spec.first_match (events_or_default n)); discriminate H.
Qed.

Lemma verdict_pending n :
  verdict n = Pending <->
  invalidating (status n) = false
  /\ (status n = InBlock ->
      forall r, In r (events_or_default n) ->
                failed r = false /\ succeeded r = false).
Proof.
  unfold verdict.
  destruct (invalidating (status n)) eqn:Hi.
  - split; [ discriminate | intros [ H _ ]; discriminate H ].
  - destruct (isInBlock (status n)) eqn:Hb.
    + rewrite scan_first_match.
      assert (Hst : status n = InBlock)
        by (destruct (status n); simpl in Hb; congruence).
      split.
      * intros H. split; [ reflexivity | ]. intros _.
        apply first_match_none.
        destruct (Spec.first_match (events_or_default n)); simpl in H;
          congruence.
      * intros [ _ H ]. apply first_match_none in H; [ | exact Hst ].
        rewrite H. reflexivity.
    + split; [ | reflexivity ].
      intros _. split; [ reflexivity | ].
      intros Hst. rewrite Hst in Hb. discriminate Hb.
Qed.

End OutcomeFacts.

Module Outcomes.
Import Promise Utils UtilsFacts OutcomeFacts.

(** Every outcome of [sendTx] has its cause in the stream.  [true] comes
    from an InBlock notification with an ExtrinsicSuccess event, [false]
    from an InBlock notification with a system/ExtrinsicFailed event, and a
    rejection of a subscribed promise is the error [Invalid transaction],
    caused by a notification tagged Invalid, Dropped, Usurped or
    Retracted. *)
Theorem outcome_has_its_cause tx ns :
  (promise (executor tx (Notifications ns)) = Fulfilled true ->
   exists n r,
     In n ns /\ status n = InBlock /\ In r (events_or_default n)
     /\ method (event r) = "ExtrinsicSuccess")
  /\ (promise (executor tx (Notifications ns)) = Fulfilled false ->
      exists n r,
        In n ns /\ status n = InBlock /\ In r (events_or_default n)
        /\ section (event r) = "system"
        /\ method (event r) = "ExtrinsicFailed")
  /\ (forall e,
         promise (executor tx (Notifications ns)) = Rejected e ->
         e = MkError "Invalid transaction"
         /\ exists n,
             In n ns /\ In (status n) [Invalid; Dropped; Usurped; Retracted]).
Proof.
  simpl executor. rewrite observe_promise.
  assert (Hcause : forall d,
             first_verdict ns = Fulfilled d ->
             exists n r,
               In n ns /\ status n = InBlock /\ In r (events_or_default n)
               /\ Spec.matches r = Some d).
  { intros d H.
    destruct (first_verdict_settled ns _ H eq_refl)
      as (pre & n & post & Hns & _ & Hn).
    destruct (verdict_fulfilled n d Hn) as [ Hst Hfm ].
    destruct (first_match_some _ _ Hfm) as (a & r & b & Hev & Hr & _).
    exists n, r. rewrite Hns, Hev.
    repeat split; auto; apply in_elt. }
  split; [ | split ].
  - intros H. destruct (Hcause true H) as (n & r & Hn & Hst & Hr & Hm).
    exists n, r. repeat split; auto.
    unfold Spec.matches, succeeded in Hm.
    destruct (failed r); [ discriminate Hm | ].
    destruct (method (event r) =? "ExtrinsicSuccess") eqn:He;
      [ apply String.eqb_eq, He | discriminate Hm ].
  - intros H. destruct (Hcause false H) as (n & r & Hn & Hst & Hr & Hm).
    exists n, r.
    unfold Spec.matches, failed in Hm.
    destruct ((section (event r) =? "system")
              && (method (event r) =? "ExtrinsicFailed")) eqn:He.
    + apply andb_prop in He. destruct He as [ Hs Hf ].
      apply String.eqb_eq in Hs. apply String.eqb_eq in Hf.
      repeat split; auto.
    + destruct (succeeded r); discriminate Hm.
  - intros e H.
    destruct (first_verdict_settled ns _ H eq_refl)
      as (pre & n & post & Hns & _ & Hn).
    destruct (verdict_rejected n e Hn) as [ He Hst ].
    split; [ exact He | ].
    exists n. split; [ rewrite Hns; apply in_elt | exact Hst ].
Qed.

Lemma outcome_has_its_cause_witness :
  exists n r,
    In n [Sample.notification Ready [];
          Sample.notification InBlock [Sample.successEvent]]
    /\ status n = InBlock /\ In r (events_or_default n)
    /\ method (event r) = "ExtrinsicSuccess".
Proof.
  apply (proj1 (outcome_has_its_cause
                  Sample.order
                  [Sample.notification Ready [];
                   Sample.notification InBlock [Sample.successEvent]])).
  reflexivity.
Defined.

(** The promise of [sendTx] stays pending exactly on the streams in which
    no notification is tagged Invalid, Dropped, Usurped or Retracted and no
    InBlock notification carries an event that either test of the event
    loop accepts.  On such a stream whoever awaits [sendTx] waits for
    ever. *)
Theorem pending_exactly_without_verdict tx ns :
  promise (executor tx (Notifications ns)) = Pending
  <->
  (forall n,
      In n ns ->
      ~ In (status n) [Invalid; Dropped; Usurped; Retracted]
      /\ (status n = InBlock ->
          forall r, In r (events_or_default n) ->
                    failed r = false /\ succeeded r = false)).
Proof.
  simpl executor. rewrite observe_promise, first_verdict_pending.
  assert (Hinv : forall s,
             invalidating s = false
             <-> ~ In s [Invalid; Dropped; Usurped; Retracted]).
  { intros s. unfold invalidating. destruct s; simpl; split; intros H;
      try reflexivity; try discriminate H;
      try (intros [ K | [ K | [ K | [ K | [] ] ] ] ]; discriminate K);
      exfalso; apply H; tauto. }
  split; intros H n Hn.
  - destruct (proj1 (verdict_pending n) (H n Hn)) as [ Hi Hev ].
    split; [ apply Hinv, Hi | exact Hev ].
  - destruct (H n Hn) as [ Hi Hev ].
    apply verdict_pending. split; [ apply Hinv, Hi | exact Hev ].
Qed.

Lemma pending_exactly_without_verdict_witness :
  promise (executor Sample.order
             (Notifications
                [Sample.notification Ready [];
                 {| events := None; status := InBlock |};
                 Sample.notification InBlock
                   [Sample.mk_event "market" "ExtrinsicFailed"];
                 Sample.notification Finalized [Sample.successEvent]]))
  = Pending.
Proof.
  apply (proj2 (pending_exactly_without_verdict
                  Sample.order
                  [Sample.notification Ready [];
                   {| events := None; status := InBlock |};
                   Sample.notification InBlock
                     [Sample.mk_event "market" "ExtrinsicFailed"];
                   Sample.notification Finalized [Sample.successEvent]])).
  intros n Hn. simpl in Hn.
  destruct Hn as [ Hn | [ Hn | [ Hn | [ Hn | [] ] ] ] ]; subst n; simpl;
    (split;
     [ intros [ K | [ K | [ K | [ K | [] ] ] ] ]; discriminate K
     | intros Hst r Hr; try discriminate Hst;
       try (destruct Hr as [ Hr | [] ]; subst r; split; reflexivity);
       try contradiction ]).
Defined.

(** Only InBlock and the four invalidating tags ever count.  A notification
    tagged Future, Ready, Broadcast, FinalityTimeout or Finalized can be
    taken out of the stream without changing the outcome, whatever events it
    carries; so can an InBlock notification that has no [events] field. *)
Theorem other_notifications_do_not_count tx pre n post :
  In (status n) [Future; Ready; Broadcast; FinalityTimeout; Finalized]
  \/ (status n = InBlock /\ events n = None) ->
  promise (executor tx (Notifications (pre ++ n :: post)))
  = promise (executor tx (Notifications (pre ++ post))).
Proof.
  intros H. simpl executor. rewrite !observe_promise, !first_verdict_app.
  assert (Hv : verdict n = Pending).
  { unfold verdict, invalidating, events_or_default.
    destruct H as [ H | [ Hst Hev ] ].
    - simpl in H.
      destruct H as [ H | [ H | [ H | [ H | [ H | [] ] ] ] ] ];
        rewrite <- H; reflexivity.
    - rewrite Hst, Hev. reflexivity. }
  simpl. rewrite Hv. reflexivity.
Qed.

Lemma other_notifications_do_not_count_witness :
  promise (executor Sample.order
             (Notifications
                ([Sample.notification Ready []]
                   ++ Sample.notification Finalized [Sample.successEvent]
                   :: [Sample.notification InBlock [Sample.failureEvent]])))
  = promise (executor Sample.order
               (Notifications
                  ([Sample.notification Ready []]
                     ++ [Sample.notification InBlock [Sample.failureEvent]]))).
Proof.
  apply (other_notifications_do_not_count
           Sample.order [Sample.notification Ready []]
           (Sample.notification Finalized [Sample.successEvent])
           [Sample.notification InBlock [Sample.failureEvent]]).
  left. simpl. tauto.
Defined.

End Outcomes.


(** ** The pipeline's answers *)

Module AnswerFacts.
Import Promise Async PipelineFacts ProtocolFacts.

(** The protocol calls back never, once, or twice; twice only when the
    first call, the success answer, threw. *)
Lemma protocol_callbacks env callback jobRunID c cfg client opts node seeds :
  callbacks (trace (protocol env callback jobRunID c cfg client opts node seeds))
  = []
  \/ (exists a,
         callbacks (trace (protocol env callback jobRunID c cfg client
                                    opts node seeds)) = [a])
  \/ (exists response e,
         callbacks (trace (protocol env callback jobRunID c cfg client
                                    opts node seeds))
         = [(resp_status response,
             Requester_success jobRunID (set_result response c));
            (500%Z, Requester_errored jobRunID e)]
         /\ callback (resp_status response)
                     (Requester_success jobRunID (set_result response c))
            = Some e).
Proof.
  unfold protocol.
  destruct (Requester_request env cfg customError)
    as [ response | e1 | ] eqn:Hreq;
    [ destruct client as [ [] | e0 ];
      [ destruct (files_stat env opts ("/ipfs/" ++ c)) as [ stat | e2 | ];
        [ destruct (isReadyOrError env node) as [ u | e3 | ];
          [ cbv zeta;
            destruct (Utils.promise _) as [ | b | e4 ];
            [ | unfold answer_success;
                destruct (data response) as [ d | s | ] eqn:Hbody;
                [ cbv zeta;
                  destruct (callback (resp_status response)
                              (Requester_success jobRunID
                                 (set_result response c)))
                    as [ e5 | ] eqn:Hcb | | ] | ] | | ] | | ] | ] | | ];
    try (left; reflexivity);
    try (right; left; eexists; reflexivity).
  right. right. exists response, e5. split; [ reflexivity | exact Hcb ].
Qed.

(** Every answer of the protocol is an error answer with status 500 or the
    success answer of an object body. *)
Lemma protocol_answers env callback jobRunID c cfg client opts node seeds s p :
  In (s, p)
     (callbacks (trace (protocol env callback jobRunID c cfg client
                                 opts node seeds))) ->
  (s = 500%Z /\ exists e, p = Requester_errored jobRunID e)
  \/ (exists response d,
         Requester_request env cfg customError = Ret response
         /\ data response = object d
         /\ s = resp_status response
         /\ p = Requester_success jobRunID (set_result response c)).
Proof.
  unfold protocol.
  destruct (Requester_request env cfg customError)
    as [ response | e1 | ] eqn:Hreq;
    [ destruct client as [ [] | e0 ];
      [ destruct (files_stat env opts ("/ipfs/" ++ c)) as [ stat | e2 | ];
        [ destruct (isReadyOrError env node) as [ u | e3 | ];
          [ cbv zeta;
            destruct (Utils.promise _) as [ | b | e4 ];
            [ | unfold answer_success;
                destruct (data response) as [ d | s0 | ] eqn:Hbody;
                [ cbv zeta;
                  destruct (callback (resp_status response)
                              (Requester_success jobRunID
                                 (set_result response c)))
                    as [ e5 | ] eqn:Hcb | | ] | ] | | ] | | ] | ] | | ];
    simpl; intros H;
    repeat (destruct H as [ H | H ]); try contradiction;
    inversion H; subst;
    try (left; split; [ reflexivity | eexists; reflexivity ]);
    right; exists response, d; auto.
Qed.

(** The protocol submits at most one transaction. *)
Lemma protocol_submissions env callback jobRunID c cfg client opts node seeds :
  submissions (trace (protocol env callback jobRunID c cfg client
                               opts node seeds)) = []
  \/ exists response stat u,
      Requester_request env cfg customError = Ret response
      /\ files_stat env opts ("/ipfs/" ++ c) = Ret stat
      /\ isReadyOrError env node = Ret u
      /\ submissions (trace (protocol env callback jobRunID c cfg client
                                      opts node seeds))
         = [(placeStorageOrder c (cumulativeSize stat) 0, seeds)].
Proof.
  unfold protocol.
  destruct (Requester_request env cfg customError)
    as [ response | e1 | ] eqn:Hreq;
    [ destruct client as [ [] | e0 ];
      [ destruct (files_stat env opts ("/ipfs/" ++ c))
          as [ stat | e2 | ] eqn:Hstat;
        [ destruct (isReadyOrError env node) as [ u | e3 | ] eqn:Hready;
          [ right; exists response, stat, u;
            repeat (split; [ reflexivity | ]);
            cbv zeta;
            destruct (Utils.promise _) as [ | b | e4 ];
            [ | unfold answer_success;
                destruct (data response) as [ d | s0 | ];
                [ cbv zeta;
                  destruct (callback _ _) as [ e5 | ] | | ] | ];
            reflexivity
          | | ] | | ] | ] | | ];
    left; reflexivity.
Qed.

End AnswerFacts.

Module Answers.
Import Promise Async Utils UtilsFacts OutcomeFacts PipelineFacts ProtocolFacts
       AnswerFacts.

(** In either revision [createRequest] calls its callback at most twice,
    and twice only when the first call, the success answer, threw: the
    second call then reports status 500 and what the first one threw.
    What the Validator throws is never answered, and neither is what
    [create] throws in [src/index.js]: the error leaves [createRequest] as
    a rejection and the callback is not called.  In the other revision
    [create] runs after the pin request, and what it throws is answered
    with status 500. *)
Theorem caller_is_answered_at_most_twice env callback request :
  (let t := trace (Index.createRequest env callback request) in
   (callbacks t = []
    \/ (exists a, callbacks t = [a])
    \/ (exists input response e,
           Validator env request = inl input
           /\ callbacks t
              = [(resp_status response,
                  Requester_success (validated_id input)
                    (set_result response (cid (validated_data input))));
                 (500%Z, Requester_errored (validated_id input) e)]
           /\ callback (resp_status response)
                       (Requester_success (validated_id input)
                          (set_result response (cid (validated_data input))))
              = Some e))
   /\ (forall e,
          Validator env request = inr e ->
          callbacks t = []
          /\ outcome (Index.createRequest env callback request) = Throw e)
   /\ (forall input e,
          Validator env request = inl input ->
          create env (Index.ipfsClientOptions env input) = inr e ->
          callbacks t = []
          /\ outcome (Index.createRequest env callback request) = Throw e))
  /\ (let t := trace (Part000.createRequest env callback request) in
      (callbacks t = []
       \/ (exists a, callbacks t = [a])
       \/ (exists input response e,
              Validator env request = inl input
              /\ callbacks t
                 = [(resp_status response,
                     Requester_success (validated_id input)
                       (set_result response (cid (validated_data input))));
                    (500%Z, Requester_errored (validated_id input) e)]
              /\ callback (resp_status response)
                          (Requester_success (validated_id input)
                             (set_result response
                                         (cid (validated_data input))))
                 = Some e))
      /\ (forall e,
             Validator env request = inr e ->
             callbacks t = []
             /\ outcome (Part000.createRequest env callback request) = Throw e)
      /\ (forall input response e,
             Validator env request = inl input ->
             Requester_request env (Part000.ipfsConfig env input) customError
             = Ret response ->
             create env (Part000.ipfsClientOptions (Part000.pinHost env input))
             = inr e ->
             callbacks t = [(500%Z, Requester_errored (validated_id input) e)])).
Proof.
  cbv zeta. split; split; [ | split | | split ].
  - destruct (index_cases env callback request)
      as [ [ Hnone _ ] | (v & Hvalid & _ & Hcalls & _) ];
      rewrite <- callbacks_calls.
    + left. rewrite Hnone. reflexivity.
    + rewrite Hcalls.
      destruct (protocol_callbacks env callback (validated_id v)
                  (cid (validated_data v)) (Index.ipfsConfig env v) (inl tt)
                  (Index.ipfsClientOptions env v) (Index.nodeUrl env v)
                  (Index.seeds env v))
        as [ H | [ H | (response & e & H & Hcb) ] ]; auto.
      right. right. exists v, response, e. auto.
  - intros e H.
    rewrite (proj1 (index_unreached env callback request) e H).
    split; reflexivity.
  - intros v e H K.
    rewrite (proj1 (proj2 (index_unreached env callback request)) v e H K).
    split; reflexivity.
  - destruct (part000_cases env callback request)
      as [ [ Hnone _ ] | (v & Hvalid & Hcalls & _) ];
      rewrite <- callbacks_calls.
    + left. rewrite Hnone. reflexivity.
    + rewrite Hcalls.
      destruct (protocol_callbacks env callback (validated_id v)
                  (cid (validated_data v)) (Part000.ipfsConfig env v)
                  (create env (Part000.ipfsClientOptions
                                 (Part000.pinHost env v)))
                  (Part000.ipfsClientOptions (Part000.pinHost env v))
                  (Part000.nodeUrl env v) (Part000.seeds env v))
        as [ H | [ H | (response & e & H & Hcb) ] ]; auto.
      right. right. exists v, response, e. auto.
  - intros e H. rewrite (part000_unreached env callback request e H).
    split; reflexivity.
  - intros v response e Hvalid Hreq Hcreate.
    rewrite <- callbacks_calls.
    rewrite (proj1 (part000_reached env callback request v Hvalid)).
    unfold protocol. rewrite Hreq, Hcreate. reflexivity.
Qed.

Lemma caller_is_answered_at_most_twice_witness :
  callbacks
    (trace (Index.createRequest
              (with_Validator
                 (fun _ => inr (MkError "Required parameter not supplied: cid"))
                 (Sample.env (Notifications [])))
              Sample.returns JNull))
  = []
  /\ outcome (Index.createRequest
                (with_Validator
                   (fun _ =>
                      inr (MkError "Required parameter not supplied: cid"))
                   (Sample.env (Notifications [])))
                Sample.returns JNull)
     = Throw (MkError "Required parameter not supplied: cid").
Proof.
  apply (proj1 (proj2 (proj1
           (caller_is_answered_at_most_twice
              (with_Validator
                 (fun _ => inr (MkError "Required parameter not supplied: cid"))
                 (Sample.env (Notifications [])))
              Sample.returns JNull)))).
  reflexivity.
Defined.

(** An answer of [createRequest] is one of two kinds.  A failure carries
    status 500 and [Requester.errored] of the request's job id.  A success
    carries the HTTP status of the pin response, whatever it is, and
    [Requester.success] of that response, whose body is an object, with
    [result] set to the content identifier. *)
Theorem answer_is_error_or_pin_response env callback request s p :
  In (s, p) (callbacks (trace (Index.createRequest env callback request))) ->
  exists input,
    Validator env request = inl input
    /\ ((s = 500%Z /\ exists e, p = Requester_errored (validated_id input) e)
        \/ (exists response d,
               Requester_request env (Index.ipfsConfig env input) customError
               = Ret response
               /\ data response = object d
               /\ s = resp_status response
               /\ p = Requester_success
                        (validated_id input)
                        (set_result response (cid (validated_data input)))
               /\ data (set_result response (cid (validated_data input)))
                  = object {| fields := fields d;
                              result := Some (cid (validated_data input)) |})).
Proof.
  rewrite <- callbacks_calls.
  destruct (index_cases env callback request)
    as [ [ Hnone _ ] | (v & Hvalid & _ & Hcalls & _) ].
  - rewrite Hnone. intros [].
  - rewrite Hcalls. intros H. exists v. split; [ exact Hvalid | ].
    destruct (protocol_answers _ _ _ _ _ _ _ _ _ _ _ H)
      as [ Herr | (response & d & Hreq & Hbody & Hs & Hp) ];
      [ left; exact Herr | right ].
    exists response, d. repeat (split; [ assumption | ]).
    unfold set_result. rewrite Hbody. reflexivity.
Qed.

Lemma answer_is_error_or_pin_response_witness :
  let env := Sample.env (Notifications
                           [Sample.notification InBlock [Sample.successEvent]]) in
  let p := Requester_success "1" (set_result Sample.pin_response "QmTest1") in
  exists input,
    Validator env Sample.request = inl input
    /\ ((200%Z = 500%Z
         /\ exists e, p = Requester_errored (validated_id input) e)
        \/ (exists response d,
               Requester_request env (Index.ipfsConfig env input) customError
               = Ret response
               /\ data response = object d
               /\ 200%Z = resp_status response
               /\ p = Requester_success
                        (validated_id input)
                        (set_result response (cid (validated_data input)))
               /\ data (set_result response (cid (validated_data input)))
                  = object {| fields := fields d;
                              result := Some (cid (validated_data input)) |})).
Proof.
  apply (answer_is_error_or_pin_response
           (Sample.env (Notifications
                          [Sample.notification InBlock [Sample.successEvent]]))
           Sample.returns Sample.request 200%Z
           (Requester_success "1" (set_result Sample.pin_response "QmTest1"))).
  simpl. left. reflexivity.
Defined.

Section Reached.
Variables (env : Env) (callback : Caller) (request : Json) (input : Validated).
Hypothesis Hvalid : Validator env request = inl input.
Hypothesis Hcreate : create env (Index.ipfsClientOptions env input) = inl tt.
Hypothesis Hswarm :
  truthy (hostNode (validated_data input)) = true ->
  swarm_connect env (Index.ipfsClientOptions env input)
                (show (hostNode (validated_data input))) <> Hang.

(** An error of a collaborator stops the pipeline where it happens and is
    answered with status 500 and that error: after a failed pin request
    nothing else is called, after a failed size lookup the chain is not
    contacted, and when the chain is not ready no transaction is built or
    submitted. *)
Theorem error_stops_the_pipeline :
  let id := validated_id input in
  let cfg := Index.ipfsConfig env input in
  let opts := Index.ipfsClientOptions env input in
  let path := ("/ipfs/" ++ cid (validated_data input))%string in
  let node := Index.nodeUrl env input in
  (forall e,
      Requester_request env cfg customError = Throw e ->
      calls (trace (Index.createRequest env callback request))
      = [Request cfg; Callback 500 (Requester_errored id e)])
  /\ (forall response e,
         Requester_request env cfg customError = Ret response ->
         files_stat env opts path = Throw e ->
         calls (trace (Index.createRequest env callback request))
         = [Request cfg; FilesStat opts path;
            Callback 500 (Requester_errored id e)])
  /\ (forall response stat e,
         Requester_request env cfg customError = Ret response ->
         files_stat env opts path = Ret stat ->
         isReadyOrError env node = Throw e ->
         calls (trace (Index.createRequest env callback request))
         = [Request cfg; FilesStat opts path; ChainReady node;
            Callback 500 (Requester_errored id e)]).
Proof.
  cbv zeta.
  rewrite (proj1 (index_reached env callback request input
                                Hvalid Hcreate Hswarm)).
  unfold protocol.
  split; [ | split ].
  - intros e H. rewrite H. reflexivity.
  - intros response e H1 H2. rewrite H1, H2. reflexivity.
  - intros response stat e H1 H2 H3. rewrite H1, H2, H3. reflexivity.
Qed.

(** When the seeds cannot be turned into a key pair, [sendTx] rejects with
    the error of the keyring before anything is signed or sent: the chain
    node's behaviour plays no part, no subscription is opened, and the
    caller is answered with status 500 and that error. *)
Theorem bad_seeds_are_answered_with_500 response stat e :
  Requester_request env (Index.ipfsConfig env input) customError
  = Ret response ->
  files_stat env (Index.ipfsClientOptions env input)
             ("/ipfs/" ++ cid (validated_data input)) = Ret stat ->
  isReadyOrError env (Index.nodeUrl env input) = Ret tt ->
  addFromUri env "sr25519" (Index.seeds env input) = inr e ->
  let tx := placeStorageOrder (cid (validated_data input))
                              (cumulativeSize stat) 0 in
  (forall chain,
      sendTx (addFromUri env) chain tx (Index.seeds env input)
      = do_reject e start)
  /\ subscribed (sendTx (addFromUri env) (signAndSend env) tx
                        (Index.seeds env input)) = false
  /\ callbacks (trace (Index.createRequest env callback request))
     = [(500%Z, Requester_errored (validated_id input) e)].
Proof.
  intros Hreq Hstat Hready Hkr tx.
  assert (Hs : forall chain,
             sendTx (addFromUri env) chain tx (Index.seeds env input)
             = do_reject e start).
  { intros chain. unfold sendTx, loadKeyringPair. rewrite Hkr. reflexivity. }
  split; [ exact Hs | ]. split; [ rewrite Hs; reflexivity | ].
  rewrite <- callbacks_calls.
  rewrite (proj1 (index_reached env callback request input
                                Hvalid Hcreate Hswarm)).
  rewrite (protocol_submits _ _ _ _ _ _ _ _ response stat Hreq Hstat Hready).
  fold tx. rewrite Hs. reflexivity.
Qed.

End Reached.

Lemma error_stops_the_pipeline_witness :
  let env := Scenario.env None [] (Throw (MkError "swarm timeout"))
                          (Ret Sample.pin_response)
                          (Throw (MkError "stat failed")) (Ret tt)
                          (inl Sample.pair) (Notifications []) in
  calls (trace (Index.createRequest env Sample.returns Scenario.request))
  = [Request (Index.ipfsConfig env Scenario.input);
     FilesStat (Index.ipfsClientOptions env Scenario.input) "/ipfs/QmTest1";
     Callback 500 (Requester_errored "7" (MkError "stat failed"))].
Proof.
  refine (proj1 (proj2 (error_stops_the_pipeline
                          (Scenario.env None []
                                        (Throw (MkError "swarm timeout"))
                                        (Ret Sample.pin_response)
                                        (Throw (MkError "stat failed")) (Ret tt)
                                        (inl Sample.pair) (Notifications []))
                          Sample.returns Scenario.request Scenario.input
                          _ _ _))
                Sample.pin_response (MkError "stat failed") _ _);
    try reflexivity.
  intros _ K. discriminate K.
Defined.

Lemma bad_seeds_are_answered_with_500_witness :
  callbacks
    (trace (Index.createRequest
              (Scenario.env None [] (Ret tt) (Ret Sample.pin_response)
                            (Ret Scenario.size) (Ret tt)
                            (inr (MkError "Unable to decode seed"))
                            (Notifications []))
              Sample.returns Scenario.request))
  = [(500%Z, Requester_errored "7" (MkError "Unable to decode seed"))].
Proof.
  apply (bad_seeds_are_answered_with_500
           (Scenario.env None [] (Ret tt) (Ret Sample.pin_response)
                         (Ret Scenario.size) (Ret tt)
                         (inr (MkError "Unable to decode seed"))
                         (Notifications []))
           Sample.returns Scenario.request Scenario.input)
    with (response := Sample.pin_response) (stat := Scenario.size);
    try reflexivity.
  intros _ K. discriminate K.
Defined.

End Answers.

Module Runs.
Import Promise Async Utils UtilsFacts OutcomeFacts PipelineFacts ProtocolFacts
       AnswerFacts.

Section Reached.
Variables (env : Env) (callback : Caller) (request : Json) (input : Validated).
Hypothesis Hvalid : Validator env request = inl input.
Hypothesis Hcreate : create env (Index.ipfsClientOptions env input) = inl tt.
Hypothesis Hswarm :
  truthy (hostNode (validated_data input)) = true ->
  swarm_connect env (Index.ipfsClientOptions env input)
                (show (hostNode (validated_data input))) <> Hang.

(** When every collaborator answers and [sendTx] resolves, the pipeline
    has made these calls in this order: pin request, size lookup, chain
    connection, transaction build, [sendTx], and then the answer.  With an
    object body the answer is the success answer, followed by a 500 answer
    if the callback throws on it.  With a body that is a string the
    assignment of the result is lost, [Requester.success] throws, and the
    only answer is status 500 with that error; with no body at all the
    assignment itself throws and is answered the same way. *)
Theorem resolved_run_in_order response stat b :
  let id := validated_id input in
  let c := cid (validated_data input) in
  let cfg := Index.ipfsConfig env input in
  let opts := Index.ipfsClientOptions env input in
  let node := Index.nodeUrl env input in
  let seeds := Index.seeds env input in
  let tx := placeStorageOrder c (cumulativeSize stat) 0 in
  let w := sendTx (addFromUri env) (signAndSend env) tx seeds in
  let before := [Request cfg; FilesStat opts ("/ipfs/" ++ c); ChainReady node;
                 BuildTx tx; SendTx tx seeds w] in
  let success := Requester_success id (set_result response c) in
  Requester_request env cfg customError = Ret response ->
  files_stat env opts ("/ipfs/" ++ c) = Ret stat ->
  isReadyOrError env node = Ret tt ->
  promise w = Fulfilled b ->
  (forall d,
      data response = object d ->
      callback (resp_status response) success = None ->
      calls (trace (Index.createRequest env callback request))
      = before ++ [Callback (resp_status response) success])
  /\ (forall d e,
         data response = object d ->
         callback (resp_status response) success = Some e ->
         calls (trace (Index.createRequest env callback request))
         = before ++ [Callback (resp_status response) success;
                      Callback 500 (Requester_errored id e)])
  /\ (forall s,
         data response = text s ->
         calls (trace (Index.createRequest env callback request))
         = before ++ [Callback 500 (Requester_errored
                                      id (success_error env (text s)))])
  /\ (data response = absent ->
      calls (trace (Index.createRequest env callback request))
      = before ++ [Callback 500 (Requester_errored
                                   id (assignment_error env))]).
Proof.
  cbv zeta. intros Hreq Hstat Hready Hp.
  rewrite (proj1 (index_reached env callback request input
                                Hvalid Hcreate Hswarm)).
  rewrite (protocol_submits _ _ _ _ _ _ _ _ response stat Hreq Hstat Hready).
  rewrite Hp. unfold answer_success.
  split; [ | split; [ | split ] ].
  - intros d Hbody Hcb. rewrite Hbody. cbv zeta. rewrite Hcb. reflexivity.
  - intros d e Hbody Hcb. rewrite Hbody. cbv zeta. rewrite Hcb. reflexivity.
  - intros s Hbody. rewrite Hbody. reflexivity.
  - intros Hbody. rewrite Hbody. reflexivity.
Qed.

(** When the chain node never sends a notification that decides, the
    caller is never answered: with every collaborator answering and a
    stream in which no notification is tagged Invalid, Dropped, Usurped or
    Retracted and no InBlock notification carries a system/ExtrinsicFailed
    or ExtrinsicSuccess event, the run ends waiting and [callback] is not
    called. *)
Theorem undecided_stream_is_never_answered response stat krp ns :
  Requester_request env (Index.ipfsConfig env input) customError
  = Ret response ->
  files_stat env (Index.ipfsClientOptions env input)
             ("/ipfs/" ++ cid (validated_data input)) = Ret stat ->
  isReadyOrError env (Index.nodeUrl env input) = Ret tt ->
  addFromUri env "sr25519" (Index.seeds env input) = inl krp ->
  signAndSend env (placeStorageOrder (cid (validated_data input))
                                     (cumulativeSize stat) 0) krp
  = Notifications ns ->
  (forall n,
      In n ns ->
      invalidating (status n) = false
      /\ (status n = InBlock ->
          forall r, In r (events_or_default n) ->
                    failed r = false /\ succeeded r = false)) ->
  callbacks (trace (Index.createRequest env callback request)) = []
  /\ outcome (Index.createRequest env callback request) = Hang.
Proof.
  intros Hreq Hstat Hready Hkr Hsub Hns.
  destruct (index_reached env callback request input Hvalid Hcreate Hswarm)
    as [ Hcalls Hout ].
  rewrite <- callbacks_calls, Hcalls, Hout.
  rewrite (protocol_submits _ _ _ _ _ _ _ _ response stat Hreq Hstat Hready).
  rewrite (sendTx_executor _ _ _ _ krp Hkr), Hsub. simpl executor.
  rewrite observe_promise.
  rewrite (proj2 (first_verdict_pending ns)); [ split; reflexivity | ].
  intros n Hn. apply verdict_pending. apply Hns, Hn.
Qed.

End Reached.

Lemma resolved_run_in_order_witness :
  let env := Scenario.env None [] (Ret tt) (Ret Scenario.streamed)
                          (Ret Scenario.size) (Ret tt) (inl Sample.pair)
                          (Notifications
                             [Sample.notification InBlock
                                                  [Sample.successEvent]]) in
  let tx := placeStorageOrder "QmTest1" 1024 0 in
  calls (trace (Index.createRequest env Sample.returns Scenario.request))
  = [Request (Index.ipfsConfig env Scenario.input);
     FilesStat (Index.ipfsClientOptions env Scenario.input) "/ipfs/QmTest1";
     ChainReady (Some "wss://rocky-api.crust.network");
     BuildTx tx;
     SendTx tx (Some "//Bob")
            (sendTx (addFromUri env) (signAndSend env) tx (Some "//Bob"))]
    ++ [Callback 500 (Requester_errored
                        "7" (MkError "Cannot use 'in' operator"))].
Proof.
  refine (proj1 (proj2 (proj2
            (resolved_run_in_order
               (Scenario.env None [] (Ret tt) (Ret Scenario.streamed)
                             (Ret Scenario.size) (Ret tt) (inl Sample.pair)
                             (Notifications
                                [Sample.notification InBlock
                                                     [Sample.successEvent]]))
               Sample.returns Scenario.request Scenario.input _ _ _
               Scenario.streamed Scenario.size true _ _ _ _)))
            "{Progress:1024}{Pins:[QmTest1]}" _);
    try reflexivity.
  intros _ K. discriminate K.
Defined.

Lemma undecided_stream_is_never_answered_witness :
  callbacks
    (trace (Index.createRequest
              (Sample.env
                 (Notifications
                    [Sample.notification Ready [];
                     Sample.notification Broadcast [];
                     Sample.notification InBlock
                       [Sample.mk_event "balances" "Withdraw"];
                     Sample.notification Finalized [Sample.successEvent]]))
              Sample.returns Sample.request))
  = [].
Proof.
  apply (undecided_stream_is_never_answered
           (Sample.env
              (Notifications
                 [Sample.notification Ready [];
                  Sample.notification Broadcast [];
                  Sample.notification InBlock
                    [Sample.mk_event "balances" "Withdraw"];
                  Sample.notification Finalized [Sample.successEvent]]))
           Sample.returns Sample.request Sample.input)
    with (response := Sample.pin_response)
         (stat := {| cumulativeSize := 1024 |})
         (krp := Sample.pair)
         (ns := [Sample.notification Ready [];
                 Sample.notification Broadcast [];
                 Sample.notification InBlock
                   [Sample.mk_event "balances" "Withdraw"];
                 Sample.notification Finalized [Sample.successEvent]]);
    try reflexivity.
  - intros K. discriminate K.
  - intros n Hn. simpl in Hn.
    destruct Hn as [ Hn | [ Hn | [ Hn | [ Hn | [] ] ] ] ]; subst n;
      (split; [ reflexivity | ]); intros Hst r Hr; try discriminate Hst.
    destruct Hr as [ Hr | [] ]. subst r. split; reflexivity.
Defined.

(** A run hands at most one transaction to [sendTx], and only after the
    pin request, the size lookup and the chain connection have succeeded.
    It is the order for the request's content identifier, the looked-up
    size and 0 replicas, signed with the seeds of the request or, when
    these are missing or empty, with the default seeds of the
    environment. *)
Theorem at_most_one_submission env callback request :
  (length (submissions (trace (Index.createRequest env callback request)))
   <= 1)%nat
  /\ (forall tx seeds,
         In (tx, seeds)
            (submissions (trace (Index.createRequest env callback request))) ->
         exists input response stat u,
           Validator env request = inl input
           /\ seeds = or_else (crustOrderSeeds (validated_data input))
                              (DEFAULT_CRUST_ORDER_SEEDS env)
           /\ Requester_request env (Index.ipfsConfig env input) customError
              = Ret response
           /\ files_stat env (Index.ipfsClientOptions env input)
                         ("/ipfs/" ++ cid (validated_data input)) = Ret stat
           /\ isReadyOrError env (Index.nodeUrl env input) = Ret u
           /\ tx = placeStorageOrder (cid (validated_data input))
                                     (cumulativeSize stat) 0).
Proof.
  rewrite <- submissions_calls.
  destruct (index_cases env callback request)
    as [ [ Hnone _ ] | (v & Hvalid & _ & Hcalls & _) ].
  - rewrite Hnone. simpl. split; [ lia | intros tx seeds [] ].
  - rewrite Hcalls.
    destruct (protocol_submissions env callback (validated_id v)
                (cid (validated_data v)) (Index.ipfsConfig env v) (inl tt)
                (Index.ipfsClientOptions env v) (Index.nodeUrl env v)
                (Index.seeds env v))
      as [ H | (response & stat & u & Hreq & Hstat & Hready & H) ];
      rewrite H; simpl.
    + split; [ lia | intros tx seeds [] ].
    + split; [ lia | ].
      intros tx seeds [ K | [] ]. inversion K.
      exists v, response, stat, u. repeat split; assumption.
Qed.

Lemma at_most_one_submission_witness :
  let env := Scenario.env None [] (Ret tt) (Ret Sample.pin_response)
                          (Ret Scenario.size) (Ret tt) (inl Sample.pair)
                          (Notifications []) in
  exists input response stat u,
    Validator env Scenario.request = inl input
    /\ Some "//Bob" = or_else (crustOrderSeeds (validated_data input))
                              (DEFAULT_CRUST_ORDER_SEEDS env)
    /\ Requester_request env (Index.ipfsConfig env input) customError
       = Ret response
    /\ files_stat env (Index.ipfsClientOptions env input)
                  ("/ipfs/" ++ cid (validated_data input)) = Ret stat
    /\ isReadyOrError env (Index.nodeUrl env input) = Ret u
    /\ placeStorageOrder "QmTest1" 1024 0
       = placeStorageOrder (cid (validated_data input)) (cumulativeSize stat) 0.
Proof.
  apply (proj2 (at_most_one_submission
                  (Scenario.env None [] (Ret tt) (Ret Sample.pin_response)
                                (Ret Scenario.size) (Ret tt) (inl Sample.pair)
                                (Notifications []))
                  Sample.returns Scenario.request)
               (placeStorageOrder "QmTest1" 1024 0) (Some "//Bob")).
  simpl. left. reflexivity.
Defined.

(** The outcome of the swarm connection changes nothing but the console:
    whether [swarm.connect] succeeds or throws, the pipeline makes the same
    calls afterwards, gives the caller the same answer and ends the same
    way. *)
Theorem swarm_connection_is_best_effort env callback request
        (swarm swarm' : IpfsClientOptions -> string -> unit + JsError) :
  let one := with_swarm_connect (fun o h => answers (swarm o h)) env in
  let other := with_swarm_connect (fun o h => answers (swarm' o h)) env in
  calls (trace (Index.createRequest one callback request))
  = calls (trace (Index.createRequest other callback request))
  /\ callbacks (trace (Index.createRequest one callback request))
     = callbacks (trace (Index.createRequest other callback request))
  /\ outcome (Index.createRequest one callback request)
     = outcome (Index.createRequest other callback request).
Proof.
  cbv zeta.
  set (one := with_swarm_connect (fun o h => answers (swarm o h)) env).
  set (other := with_swarm_connect (fun o h => answers (swarm' o h)) env).
  assert (H : calls (trace (Index.createRequest one callback request))
              = calls (trace (Index.createRequest other callback request))
              /\ outcome (Index.createRequest one callback request)
                 = outcome (Index.createRequest other callback request)).
  { destruct (Validator env request) as [ v | e ] eqn:Hvalid.
    - destruct (create env (Index.ipfsClientOptions env v)) as [ [] | e ]
        eqn:Hcreate.
      + destruct (index_reached one callback request v Hvalid Hcreate)
          as [ H1 H2 ].
        { intros _. unfold one. simpl.
          destruct (swarm _ _); discriminate. }
        destruct (index_reached other callback request v Hvalid Hcreate)
          as [ K1 K2 ].
        { intros _. unfold other. simpl.
          destruct (swarm' _ _); discriminate. }
        rewrite H1, H2, K1, K2. split; reflexivity.
      + rewrite (proj1 (proj2 (index_unreached one callback request))
                       v e Hvalid Hcreate).
        rewrite (proj1 (proj2 (index_unreached other callback request))
                       v e Hvalid Hcreate).
        split; reflexivity.
    - rewrite (proj1 (index_unreached one callback request) e Hvalid).
      rewrite (proj1 (index_unreached other callback request) e Hvalid).
      split; reflexivity. }
  destruct H as [ Hcalls Hout ].
  split; [ exact Hcalls | ]. split; [ | exact Hout ].
  rewrite <- callbacks_calls, Hcalls. apply callbacks_calls.
Qed.

End Runs.
(** ** Parameters and headers *)

Module ObjectFacts.

Lemma get_app k a b :
  get k (a ++ b) = match get k a with Some v => Some v | None => get k b end.
Proof.
  induction a as [ | [ k' v' ] a IH ]; simpl; [ reflexivity | ].
  destruct (k' =? k); [ reflexivity | exact IH ].
Qed.

(** Lookup after assignment. *)
Lemma get_set k k' v o :
  get k (set k' v o) = if k' =? k then Some v else get k o.
Proof.
  induction o as [ | [ k0 v0 ] o IH ]; simpl; [ reflexivity | ].
  destruct (k0 =? k') eqn:H0; simpl.
  - apply String.eqb_eq in H0. subst k0.
    destruct (k' =? k); reflexivity.
  - rewrite IH.
    destruct (k0 =? k) eqn:H1; [ | reflexivity ].
    apply String.eqb_eq in H1. subst k0.
    rewrite String.eqb_sym, H0. reflexivity.
Qed.

(** Lookup in a spread: the last binding of the spread-in object wins,
    and a key it does not have keeps its old value. *)
Lemma get_spread k more :
  forall o,
    get k (spread o more)
    = match get k (rev more) with Some v => Some v | None => get k o end.
Proof.
  unfold spread.
  induction more as [ | [ k1 v1 ] more IH ]; intros o; simpl; [ reflexivity | ].
  rewrite IH, get_app, get_set. simpl.
  destruct (get k (rev more)); [ reflexivity | ].
  destruct (k1 =? k); reflexivity.
Qed.

Lemma or_else_absent a d : or_else (absent_if_empty a) d = or_else a d.
Proof.
  unfold or_else, absent_if_empty.
  destruct (truthy a) eqn:H; [ rewrite H; reflexivity | reflexivity ].
Qed.

Lemma truthy_absent a : truthy (absent_if_empty a) = truthy a.
Proof.
  unfold absent_if_empty.
  destruct (truthy a) eqn:H; [ exact H | reflexivity ].
Qed.

End ObjectFacts.


Module Requests.
Import Promise Async Utils PipelineFacts ProtocolFacts ObjectFacts.

(** A parameter given as the empty string is a parameter left out: in
    both revisions, two requests whose validated forms differ only in that
    empty [hostNode], [ipfsPinHost], [crustNodeUrl] and [crustOrderSeeds]
    are removed from one of them run in exactly the same way, so that the
    defaults of the environment apply to the empty ones. *)
Theorem empty_parameter_is_absent env callback request request' input :
  Validator env request = inl input ->
  Validator env request' = inl (without_empty input) ->
  Index.createRequest env callback request'
  = Index.createRequest env callback request
  /\ Part000.createRequest env callback request'
     = Part000.createRequest env callback request.
Proof.
  intros Hvalid Hvalid'.
  destruct input as [ id [ c h p n s ] ].
  assert (Hp : Index.pinHost env (without_empty
                 {| validated_id := id;
                    validated_data :=
                      {| cid := c; hostNode := h; ipfsPinHost := p;
                         crustNodeUrl := n; crustOrderSeeds := s |} |})
               = Index.pinHost env
                   {| validated_id := id;
                      validated_data :=
                        {| cid := c; hostNode := h; ipfsPinHost := p;
                           crustNodeUrl := n; crustOrderSeeds := s |} |})
    by apply or_else_absent.
  split.
  - unfold Index.createRequest, Index.ipfsClientOptions, Index.ipfsConfig,
      Index.nodeUrl, Index.seeds.
    rewrite Hvalid, Hvalid'. unfold throwing, answers, bind at 1 6.
    cbv iota beta zeta.
    rewrite Hp. unfold without_empty. simpl.
    rewrite !or_else_absent, truthy_absent.
    destruct (truthy h) eqn:Hh; [ | reflexivity ].
    unfold absent_if_empty. rewrite Hh. reflexivity.
  - unfold Part000.createRequest, Part000.ipfsConfig, Part000.nodeUrl,
      Part000.seeds, Part000.pinHost.
    rewrite Hvalid, Hvalid'. unfold without_empty. simpl.
    rewrite !or_else_absent. reflexivity.
Qed.

Lemma empty_parameter_is_absent_witness :
  let env :=
    with_Validator
      (fun r => match r with
                | JNull => inl (without_empty Scenario.input)
                | _ => inl Scenario.input
                end)
      (Sample.env (Notifications [])) in
  Index.createRequest env Sample.returns JNull
  = Index.createRequest env Sample.returns Scenario.request.
Proof.
  refine (proj1 (empty_parameter_is_absent
                   (with_Validator
                      (fun r => match r with
                                | JNull => inl (without_empty Scenario.input)
                                | _ => inl Scenario.input
                                end)
                      (Sample.env (Notifications [])))
                   Sample.returns Scenario.request JNull Scenario.input
                   _ _));
    reflexivity.
Defined.

(** The two revisions agree on what matters.  With the request validated,
    no authentication token in the environment, a pin host configured that
    [create] accepts, and a swarm connection that does not last for ever,
    [src/index.js] and the other revision make the same calls to the pin
    service, the size lookup and the chain, give the caller the same
    answer and end the same way; they differ in console lines and in the
    swarm connection only. *)
Theorem revisions_agree env callback request input :
  Validator env request = inl input ->
  truthy (DEFAULT_IPFS_PIN_HOST_AUTH_TOKEN env) = false ->
  truthy (or_else (ipfsPinHost (validated_data input))
                  (DEFAULT_IPFS_PIN_HOST env)) = true ->
  create env (Index.ipfsClientOptions env input) = inl tt ->
  (truthy (hostNode (validated_data input)) = true ->
   swarm_connect env (Index.ipfsClientOptions env input)
                 (show (hostNode (validated_data input))) <> Hang) ->
  calls (trace (Index.createRequest env callback request))
  = calls (trace (Part000.createRequest env callback request))
  /\ callbacks (trace (Index.createRequest env callback request))
     = callbacks (trace (Part000.createRequest env callback request))
  /\ outcome (Index.createRequest env callback request)
     = outcome (Part000.createRequest env callback request).
Proof.
  intros Hvalid Htoken Hhost Hcreate Hswarm.
  destruct (index_reached env callback request input Hvalid Hcreate Hswarm)
    as [ H1 H2 ].
  destruct (part000_reached env callback request input Hvalid) as [ K1 K2 ].
  assert (Hcfg : Index.ipfsConfig env input = Part000.ipfsConfig env input)
    by (unfold Index.ipfsConfig, Part000.ipfsConfig; rewrite Htoken;
        reflexivity).
  assert (Hopts : Index.ipfsClientOptions env input
                  = Part000.ipfsClientOptions (Part000.pinHost env input)).
  { unfold Index.ipfsClientOptions, Part000.ipfsClientOptions,
      Index.pinHost, Part000.pinHost.
    rewrite Htoken.
    destruct (or_else (ipfsPinHost (validated_data input))
                      (DEFAULT_IPFS_PIN_HOST env));
      [ reflexivity | discriminate Hhost ]. }
  assert (Hsame :
            protocol env callback (validated_id input)
                     (cid (validated_data input))
                     (Index.ipfsConfig env input) (inl tt)
                     (Index.ipfsClientOptions env input)
                     (Index.nodeUrl env input) (Index.seeds env input)
            = protocol env callback (validated_id input)
                       (cid (validated_data input))
                       (Part000.ipfsConfig env input)
                       (create env (Part000.ipfsClientOptions
                                      (Part000.pinHost env input)))
                       (Part000.ipfsClientOptions (Part000.pinHost env input))
                       (Part000.nodeUrl env input) (Part000.seeds env input)).
  { rewrite <- Hopts, <- Hcfg, Hcreate. reflexivity. }
  assert (Hcalls : calls (trace (Index.createRequest env callback request))
                   = calls (trace (Part000.createRequest env callback request)))
    by (rewrite H1, K1, Hsame; reflexivity).
  split; [ exact Hcalls | ]. split.
  - rewrite <- callbacks_calls, Hcalls. apply callbacks_calls.
  - rewrite H2, K2, Hsame. reflexivity.
Qed.

Lemma revisions_agree_witness :
  callbacks (trace (Index.createRequest
                      (Sample.env (Notifications
                                     [Sample.notification Dropped []]))
                      Sample.returns Sample.request))
  = callbacks (trace (Part000.createRequest
                        (Sample.env (Notifications
                                       [Sample.notification Dropped []]))
                        Sample.returns Sample.request)).
Proof.
  apply (revisions_agree
           (Sample.env (Notifications [Sample.notification Dropped []]))
           Sample.returns Sample.request Sample.input); try reflexivity.
  intros K. discriminate K.
Defined.

(** The headers of the pin request.  Without an authentication token
    neither the request nor the IPFS client carries any.  With a token the
    client authorizes with [Basic <token>], and the request carries
    [Content-Type: multipart/form-data] and [Authorization: Basic <token>]
    under the headers of the form: a key the form has takes the form's
    (last) value, any other key keeps ours. *)
Theorem pin_request_headers env input :
  (truthy (DEFAULT_IPFS_PIN_HOST_AUTH_TOKEN env) = false ->
   headers (Index.ipfsConfig env input) = None
   /\ client_headers (Index.ipfsClientOptions env input) = None)
  /\ (forall t,
         DEFAULT_IPFS_PIN_HOST_AUTH_TOKEN env = Some t ->
         t <> "" ->
         client_headers (Index.ipfsClientOptions env input)
         = Some [("authorization", ("Basic " ++ t)%string)]
         /\ exists h,
             headers (Index.ipfsConfig env input) = Some h
             /\ forall k,
                 get k h
                 = match get k (rev (form_getHeaders env)) with
                   | Some v => Some v
                   | None =>
                       get k [("Content-Type", "multipart/form-data");
                              ("Authorization", ("Basic " ++ t)%string)]
                   end).
Proof.
  unfold Index.ipfsConfig, Index.ipfsClientOptions. simpl.
  split.
  - intros H. rewrite H. split; reflexivity.
  - intros t Ht Hne. rewrite Ht.
    assert (Htr : truthy (Some t) = true).
    { simpl. apply String.eqb_neq in Hne. rewrite Hne. reflexivity. }
    rewrite Htr. split; [ reflexivity | ].
    eexists. split; [ reflexivity | ].
    intros k. apply get_spread.
Qed.

Lemma pin_request_headers_witness :
  let env := Scenario.env (Some "dXNlcjpwYXNz")
                          [("content-type", "multipart/form-data; boundary=x")]
                          (Ret tt) (Ret Sample.pin_response)
                          (Ret Scenario.size) (Ret tt) (inl Sample.pair)
                          (Notifications []) in
  client_headers (Index.ipfsClientOptions env Scenario.input)
  = Some [("authorization", "Basic dXNlcjpwYXNz")]
  /\ exists h,
      headers (Index.ipfsConfig env Scenario.input) = Some h
      /\ forall k,
          get k h
          = match get k (rev (form_getHeaders env)) with
            | Some v => Some v
            | None =>
                get k [("Content-Type", "multipart/form-data");
                       ("Authorization", "Basic dXNlcjpwYXNz")]
            end.
Proof.
  apply (proj2 (pin_request_headers
                  (Scenario.env (Some "dXNlcjpwYXNz")
                                [("content-type",
                                  "multipart/form-data; boundary=x")]
                                (Ret tt) (Ret Sample.pin_response)
                                (Ret Scenario.size) (Ret tt) (inl Sample.pair)
                                (Notifications []))
                  Scenario.input)
               "dXNlcjpwYXNz").
  - reflexivity.
  - discriminate.
Defined.

End Requests.
